(** * lambdahandler: a router for Lambda function URLs

    A shallow embedding of the Go package [lambdahandler] (the router file
    and [utils.go]) and the properties of its matching, dispatch, CORS and
    response code.

    Conventions of the embedding.
    - A Go [string] is a [string], its sequence of bytes; [==] on strings
      is [String.eqb]. [regexp] reads a text as UTF-8, one code point at a
      time ([regexp.rune_width] below).
    - A Go [map[string]string] is a [gmap string string]; a map field that
      may be [nil] is an [option] of one, and reading a [nil] map finds no
      entry, as in Go.
    - Go's [int] status codes are [Z].
    - A panic (an index out of range, [regexp.MustCompile] on a bad
      pattern) is [None].
    - The packages [regexp], [strings] and [encoding/json] are not part of
      the repository; [regexp] and [strings.Join] are modelled below for
      what the router asks of them, [json.Marshal] is a parameter. *)

From Stdlib Require Import Ascii String ZArith Lia.
From stdpp Require Import base option list strings gmap.

Local Open Scope string_scope.
Local Open Scope Z_scope.

Abbreviation Params := (gmap string string).

(** ** Strings *)

Definition is_slash (c : ascii) : bool := Ascii.eqb c "/".
Definition is_colon (c : ascii) : bool := Ascii.eqb c ":".

(** [strings.Join(elems, sep)]. *)
Fixpoint Join (elems : list string) (sep : string) : string :=
  match elems with
  | [] => ""
  | e :: rest =>
      match rest with
      | [] => e
      | _ :: _ => e +:+ sep +:+ Join rest sep
      end
  end.

(** [s[n:]], the empty string when [n] is past the end. *)
Fixpoint string_drop (n : nat) (s : string) : string :=
  match n, s with
  | O, _ => s
  | S k, String _ rest => string_drop k rest
  | S _, "" => ""
  end.

(** [strings.HasPrefix(s, prefix)]. *)
Fixpoint HasPrefix (s prefix : string) {struct prefix} : bool :=
  match prefix with
  | "" => true
  | String p prefix' =>
      match s with
      | String c rest => Ascii.eqb c p && HasPrefix rest prefix'
      | "" => false
      end
  end.

(** ** The [regexp] package, for the patterns the router builds

    [buildPathPattern] only ever compiles [^ body $], where [body] is the
    route template with its [:name] markers replaced by the group
    [([^/]+)].  The model covers the bodies made of
    - ordinary ASCII characters, which match themselves,
    - [.], any character but a newline,
    - the group [([^/]+)] and its named form [(?P<name>[^/]+)].
    Every other use of a character that [regexp.QuoteMeta] escapes, and every
    byte above 127 in a pattern (part of a multi-byte character, or invalid
    UTF-8, on which the compiler fails), is outside the model and compiles to
    [None]. The text matched against may hold any bytes: it is read as Go
    reads it, a code point at a time, a byte that is not valid UTF-8 standing
    for one character of width 1. *)
Module regexp.

Inductive node : Type :=
| Lit (c : ascii)
| AnyCharNotNL
| Capture (name : string).

Record Regexp : Type := { prog : list node }.

(** The characters [regexp.QuoteMeta] escapes. *)
Definition meta_chars : list ascii :=
  ["\"; "."; "+"; "*"; "?"; "("; ")"; "|"; "["; "]"; "{"; "}"; "^"; "$"]%char.

Definition is_meta (c : ascii) : bool := existsb (Ascii.eqb c) meta_chars.

Definition byte_in (lo hi : nat) (c : ascii) : bool :=
  ((lo <=? nat_of_ascii c) && (nat_of_ascii c <=? hi))%nat.

Definition is_ascii (c : ascii) : bool := byte_in 0 127 c.

(** A pattern character the model takes as a literal. *)
Definition is_literal (c : ascii) : bool := negb (is_meta c) && is_ascii c.

(** [utf8.DecodeRuneInString], the width it returns. A continuation byte is
    in 0x80..0xBF; the second byte of a sequence is held to the narrower
    range its lead byte asks for; the size is read off the lead byte, and a
    lead byte outside 0xC2..0xF4 is invalid. A sequence that is cut short or
    has a byte out of range is an invalid character of width 1. *)
Definition is_cont (c : ascii) : bool := byte_in 128 191 c.

Definition second_ok (lead b : ascii) : bool :=
  let l := nat_of_ascii lead in
  if (l =? 224)%nat then byte_in 160 191 b
  else if (l =? 237)%nat then byte_in 128 159 b
  else if (l =? 240)%nat then byte_in 144 191 b
  else if (l =? 244)%nat then byte_in 128 143 b
  else is_cont b.

Definition rune_size (lead : ascii) : nat :=
  let l := nat_of_ascii lead in
  if (l <? 194)%nat then 1%nat
  else if (l <? 224)%nat then 2%nat
  else if (l <? 240)%nat then 3%nat
  else if (l <? 245)%nat then 4%nat
  else 1%nat.

Definition rune_width (s : string) : nat :=
  match s with
  | "" => 0%nat
  | String d rest =>
      match rune_size d, rest with
      | 2%nat, String b1 _ => if second_ok d b1 then 2%nat else 1%nat
      | 3%nat, String b1 (String b2 _) =>
          if second_ok d b1 && is_cont b2 then 3%nat else 1%nat
      | 4%nat, String b1 (String b2 (String b3 _)) =>
          if second_ok d b1 && is_cont b2 && is_cont b3 then 4%nat else 1%nat
      | _, _ => 1%nat
      end
  end.

(** Characters of a capture name: [_], digits and ASCII letters. *)
Definition is_word (c : ascii) : bool :=
  let n := nat_of_ascii c in
  (Ascii.eqb c "_"
   || ((48 <=? n) && (n <=? 57))
   || ((65 <=? n) && (n <=? 90))
   || ((97 <=? n) && (n <=? 122)))%nat.

Fixpoint take_word (s : string) : string :=
  match s with
  | String c rest => if is_word c then String c (take_word rest) else ""
  | "" => ""
  end.

(** What follows the opening parenthesis of the one group modelled. *)
Definition group_body : string := "[^/]+)".

(** After an opening parenthesis: [?P<name>] followed by the group body. *)
Definition named_group (rest : string) : option string :=
  if HasPrefix rest "?P<" then
    let name := take_word (string_drop 3 rest) in
    if negb (String.eqb name "")
       && HasPrefix (string_drop (3 + String.length name) rest)
                    (String ">" group_body)
    then Some name
    else None
  else None.

(** The parser reads the pattern after its leading [^], up to and including
    the closing [$]. [skip] counts the characters of a group already
    recognised that are still to be passed over. *)
Fixpoint parse (skip : nat) (s : string) : option (list node) :=
  match s with
  | "" => None
  | String c rest =>
      match skip with
      | S k => parse k rest
      | O =>
          if Ascii.eqb c "$" then
            match rest with "" => Some [] | String _ _ => None end
          else if Ascii.eqb c "." then
            cons AnyCharNotNL <$> parse 0 rest
          else if Ascii.eqb c "(" then
            if HasPrefix rest group_body then
              cons (Capture "") <$> parse (String.length group_body) rest
            else
              match named_group rest with
              | Some name =>
                  cons (Capture name)
                    <$> parse (4 + String.length name
                               + String.length group_body) rest
              | None => None
              end
          else if is_literal c then cons (Lit c) <$> parse 0 rest
          else None
      end
  end.

Definition Compile (expr : string) : option Regexp :=
  match expr with
  | String "^" rest => Build_Regexp <$> parse 0 rest
  | _ => None
  end.

(** [regexp.MustCompile]: [None] stands for the panic, and for a pattern
    outside the model. *)
Definition MustCompile (expr : string) : option Regexp := Compile expr.

(** The group [([^/]+)] followed by the continuation [k]: one character or
    more, none of them a slash, the longest choice first. The result is the
    text of this group and the texts of the groups after it. [inside] counts
    the bytes of the current character that are still to be taken: the group
    ends between characters only. *)
Fixpoint cap_greedy (k : string -> option (list string)) (inside : nat)
    (s : string) : option (string * list string) :=
  match s with
  | "" => None
  | String d rest =>
      if (inside =? 0)%nat && is_slash d then None
      else
        let left :=
          match inside with
          | O => (rune_width (String d rest) - 1)%nat
          | S n => n
          end in
        match cap_greedy k left rest with
        | Some (w, caps) => Some (String d w, caps)
        | None =>
            if (left =? 0)%nat then (fun caps => (String d "", caps)) <$> k rest
            else None
        end
  end.

(** Matching a whole text (the pattern is anchored at both ends) in the
    order of a backtracking matcher; the result lists the group texts. A
    literal is an ASCII character and takes one byte; the dot takes one
    character, of whatever width. *)
Fixpoint exec (p : list node) (s : string) : option (list string) :=
  match p with
  | [] => match s with "" => Some [] | String _ _ => None end
  | Lit c :: p' =>
      match s with
      | String d rest => if Ascii.eqb c d then exec p' rest else None
      | "" => None
      end
  | AnyCharNotNL :: p' =>
      match s with
      | String d rest =>
          if Ascii.eqb d "010" then None
          else exec p' (string_drop (rune_width s) s)
      | "" => None
      end
  | Capture _ :: p' =>
      (fun wc : string * list string => wc.1 :: wc.2)
        <$> cap_greedy (exec p') 0 s
  end.

Definition MatchString (re : Regexp) (s : string) : bool :=
  match exec (prog re) s with Some _ => true | None => false end.

(** [FindStringSubmatch]: the whole match, then every group; [None] is
    Go's [nil] result. *)
Definition FindStringSubmatch (re : Regexp) (s : string)
  : option (list string) :=
  cons s <$> exec (prog re) s.

Fixpoint group_names (p : list node) : list string :=
  match p with
  | [] => []
  | Capture name :: p' => name :: group_names p'
  | _ :: p' => group_names p'
  end.

(** [SubexpNames]: entry 0 is the empty name of the whole match. *)
Definition SubexpNames (re : Regexp) : list string :=
  "" :: group_names (prog re).

(** [ReplaceAllString] of the pattern [:([^/]+)] by the text [([^/]+)],
    which holds no [$] to expand. A match starts at a colon followed by a
    character other than a slash and runs to the next slash or the end;
    [in_match] is true while inside one. *)
Fixpoint ReplaceAllString_params (in_match : bool) (src : string) : string :=
  match src with
  | "" => ""
  | String c rest =>
      if in_match then
        if is_slash c then String c (ReplaceAllString_params false rest)
        else ReplaceAllString_params true rest
      else if is_colon c then
        match rest with
        | "" => String c ""
        | String d _ =>
            if is_slash d then String c (ReplaceAllString_params false rest)
            else String "(" group_body +:+ ReplaceAllString_params true rest
        end
      else String c (ReplaceAllString_params false rest)
  end.

End regexp.

(** ** utils.go *)

Definition buildPathPattern (path : string) : option regexp.Regexp :=
  let regexStr := "^" +:+ regexp.ReplaceAllString_params false path +:+ "$" in
  regexp.MustCompile regexStr.

(** The loop of [extractParams] over [SubexpNames], from index [i] on. *)
Fixpoint extractParams_loop (matches : list string) (i : nat)
    (names : list string) (params : Params) : option Params :=
  match names with
  | [] => Some params
  | name :: rest =>
      if (0 <? i)%nat && negb (String.eqb name "") then
        match matches !! i with
        | Some v => extractParams_loop matches (S i) rest (<[name := v]> params)
        | None => None
        end
      else extractParams_loop matches (S i) rest params
  end.

Definition extractParams (path : string) (pattern : regexp.Regexp)
  : option Params :=
  let matches := default [] (regexp.FindStringSubmatch pattern path) in
  extractParams_loop matches 0 (regexp.SubexpNames pattern) ∅.

(** ** The AWS event types the router reads and builds *)
Module events.

(** [LambdaFunctionURLRequest], the fields the router reads:
    [RequestContext.HTTP.Method], [RequestContext.HTTP.Path], [Headers]. *)
Record LambdaFunctionURLRequest : Type := {
  Method : string;
  Path : string;
  ReqHeaders : gmap string string;
}.

Record LambdaFunctionURLResponse : Type := {
  StatusCode : Z;
  Headers : option (gmap string string);
  Body : string;
  IsBase64Encoded : bool;
  Cookies : list string;
}.

(** The zero value of the response struct. *)
Definition zero : LambdaFunctionURLResponse :=
  {| StatusCode := 0; Headers := None; Body := "";
     IsBase64Encoded := false; Cookies := [] |}.

(** Reading a header of a response; a [nil] map has no entry. *)
Definition header (resp : LambdaFunctionURLResponse) (k : string)
  : option string :=
  match Headers resp with
  | Some h => h !! k
  | None => None
  end.

End events.

(** ** The router *)

(** A [LambdaError] interface value, seen through its two methods [Code()]
    and [Message()]; [LambdaErrorResponse] is the implementation the package
    provides, built by [NewLambdaError]. The model covers the error values
    whose two methods return; an interface that holds a nil
    [*LambdaErrorResponse], on which [Code()] panics, is outside it. *)
Record LambdaError : Type := { Code : Z; Message : string }.

Definition NewLambdaError (code : Z) (message : string) : LambdaError :=
  {| Code := code; Message := message |}.

(** [ErrorResponse]; [fmt.Sprintf("Error: %s", m)] is ["Error: " + m]. *)
Definition ErrorResponse (err : LambdaError) : events.LambdaFunctionURLResponse :=
  {| events.StatusCode := Code err;
     events.Headers := None;
     events.Body := "Error: " +:+ Message err;
     events.IsBase64Encoded := false;
     events.Cookies := [] |}.

Section Router.

(** The values a handler may return ([interface{}]) and [json.Marshal] on
    them: [Some body], or [None] for a marshalling error, in which case the
    returned byte slice is [nil]. *)
Context {Data : Type} (json_Marshal : Data -> option string).

(** A handler gets the request and the params (the context is only passed
    on) and returns the pair of Go's [(interface{}, LambdaError)], with
    [None] for a [nil] error. The model covers the calls of a handler that
    return; a [nil] handler and a handler that panics are outside it. *)
Definition HandlerFunc : Type :=
  events.LambdaFunctionURLRequest -> Params -> Data * option LambdaError.

Record Route : Type := {
  Method : string;
  Pattern : regexp.Regexp;
  Handler : HandlerFunc;
  Template : string;
}.

Record Router : Type := {
  routes : list Route;
  Origins : list string;
  Methods : list string;
  Headers : list string;
}.

Definition NewRouter : Router :=
  {| routes := []; Origins := ["*"]; Methods := ["*"]; Headers := ["*"] |}.

(** [AddRoute]; [None] when [buildPathPattern] panics. *)
Definition AddRoute (r : Router) (method path : string) (handler : HandlerFunc)
  : option Router :=
  pattern ← buildPathPattern path;
  Some {| routes := routes r ++ [ {| Method := method; Pattern := pattern;
                                    Handler := handler; Template := path |} ];
          Origins := Origins r; Methods := Methods r; Headers := Headers r |}.

Definition Get (r : Router) path handler := AddRoute r "GET" path handler.
Definition Post (r : Router) path handler := AddRoute r "POST" path handler.
Definition Put (r : Router) path handler := AddRoute r "PUT" path handler.
Definition Delete (r : Router) path handler := AddRoute r "DELETE" path handler.

Definition isOriginAllowed (r : Router) (origin : string) : bool :=
  if (length (Origins r) =? 1)%nat
     && bool_decide (Origins r !! 0%nat = Some "*")
  then true
  else existsb (fun allowedOrigin => String.eqb allowedOrigin origin)
               (Origins r).

(** [req.Headers["origin"]]: the empty string when the key is absent. *)
Definition request_origin (req : events.LambdaFunctionURLRequest) : string :=
  default "" (events.ReqHeaders req !! "origin").

Definition corsPreflightResponse (r : Router)
    (req : events.LambdaFunctionURLRequest) : events.LambdaFunctionURLResponse :=
  let origin := request_origin req in
  if negb (isOriginAllowed r origin) then
    {| events.StatusCode := 403; events.Headers := None;
       events.Body := "Origin not allowed";
       events.IsBase64Encoded := false; events.Cookies := [] |}
  else
    {| events.StatusCode := 200;
       events.Headers := Some
         (<["Access-Control-Allow-Headers" := Join (Headers r) ", "]>
           (<["Access-Control-Allow-Methods" := Join (Methods r) ", "]>
             (<["Access-Control-Allow-Origin" := origin]> ∅)));
       events.Body := "";
       events.IsBase64Encoded := false; events.Cookies := [] |}.

(** [attachCORSHeaders] writes through the pointer; here it returns the
    updated response. *)
Definition attachCORSHeaders (r : Router)
    (response : events.LambdaFunctionURLResponse)
    (req : events.LambdaFunctionURLRequest) : events.LambdaFunctionURLResponse :=
  let origin := request_origin req in
  let origin :=
    if String.eqb origin "" || negb (isOriginAllowed r origin) then "*"
    else origin in
  let headers :=
    match events.Headers response with
    | None => ∅
    | Some h => h
    end in
  let headers := <["Access-Control-Allow-Origin" := origin]> headers in
  let headers :=
    <["Access-Control-Allow-Methods" := Join (Methods r) ", "]> headers in
  let headers :=
    <["Access-Control-Allow-Headers" := Join (Headers r) ", "]> headers in
  {| events.StatusCode := events.StatusCode response;
     events.Headers := Some headers;
     events.Body := events.Body response;
     events.IsBase64Encoded := events.IsBase64Encoded response;
     events.Cookies := events.Cookies response |}.

(** [SuccessResponse]: the marshalling error is dropped, and the body is
    the text of the byte slice, empty when marshalling failed. *)
Definition SuccessResponse (data : Data) : events.LambdaFunctionURLResponse :=
  let body := default "" (json_Marshal data) in
  {| events.StatusCode := 200;
     events.Headers := Some (<["Content-Type" := "application/json"]> ∅);
     events.Body := body;
     events.IsBase64Encoded := false; events.Cookies := [] |}.

(** How the route loop of [HandleRequest] ends: by the [return] inside it,
    or by running on to the code after it with the variable [response]. *)
Inductive loop_exit : Type :=
| Returned (resp : events.LambdaFunctionURLResponse)
| Continued (response : events.LambdaFunctionURLResponse).

Fixpoint HandleRequest_loop (req : events.LambdaFunctionURLRequest)
    (path method : string) (rs : list Route) : option loop_exit :=
  match rs with
  | [] => Some (Continued events.zero)
  | route :: rest =>
      if String.eqb (Method route) method
         && regexp.MatchString (Pattern route) path
      then
        params ← extractParams path (Pattern route);
        let '(data, err) := Handler route req params in
        match err with
        | Some e => Some (Returned (ErrorResponse e))
        | None => Some (Continued (SuccessResponse data))
        end
      else HandleRequest_loop req path method rest
  end.

(** [HandleRequest]; the Go error result is always [nil] and is left out. *)
Definition HandleRequest (r : Router) (req : events.LambdaFunctionURLRequest)
  : option events.LambdaFunctionURLResponse :=
  let path := events.Path req in
  let method := events.Method req in
  if String.eqb method "OPTIONS" then Some (corsPreflightResponse r req)
  else
    out ← HandleRequest_loop req path method (routes r);
    match out with
    | Returned resp => Some resp
    | Continued response =>
        let response :=
          if (events.StatusCode response =? 0)%Z then
            {| events.StatusCode := 404; events.Headers := None;
               events.Body := "Route not found";
               events.IsBase64Encoded := false; events.Cookies := [] |}
          else response in
        Some (attachCORSHeaders r response req)
    end.

End Router.

Arguments Route : clear implicits.
Arguments Router : clear implicits.
Arguments HandlerFunc : clear implicits.

(** ** Sample handler values

    A small set of Go values to run the router on: [json.Marshal] renders a
    boolean and [nil], and fails on a channel (unsupported type). *)
Inductive sample_data : Type :=
| DBool (b : bool)
| DNil
| DChan.

Definition sample_Marshal (d : sample_data) : option string :=
  match d with
  | DBool true => Some "true"
  | DBool false => Some "false"
  | DNil => Some "null"
  | DChan => None
  end.

(** ** Segments of a path

    [strings.Split(s, "/")]: the pieces of [s] between slashes. *)
Fixpoint segments (s : string) : list string :=
  match s with
  | "" => [""]
  | String c rest =>
      if is_slash c then "" :: segments rest
      else
        match segments rest with
        | seg :: segs => String c seg :: segs
        | [] => [String c ""]
        end
  end.

(** The matcher as the specification words it: a template segment that
    starts with a colon is a parameter and takes any non-empty path segment,
    any other segment is a literal and takes only itself; the two paths must
    have the same number of segments. *)
Definition is_param_segment (seg : string) : bool :=
  match seg with
  | String c _ => is_colon c
  | "" => false
  end.

Definition segment_accepts (t p : string) : bool :=
  if is_param_segment t then negb (String.eqb p "") else String.eqb t p.

Fixpoint segments_accept (ts ps : list string) : bool :=
  match ts, ps with
  | [], [] => true
  | t :: ts', p :: ps' => segment_accepts t p && segments_accept ts' ps'
  | _, _ => false
  end.

Definition spec_matches (template path : string) : bool :=
  segments_accept (segments template) (segments path).

(** Templates in which every segment is either a colon followed by a name of
    one character or more, or made of ASCII characters that are neither
    colons nor characters [regexp] reads as operators. *)
Definition plain_char (c : ascii) : bool :=
  regexp.is_literal c && negb (is_colon c).

Fixpoint plain_string (s : string) : bool :=
  match s with
  | "" => true
  | String c rest => plain_char c && plain_string rest
  end.

Definition named_param_segment (seg : string) : bool :=
  match seg with
  | String c (String _ _) => is_colon c
  | _ => false
  end.

Definition simple_segment (seg : string) : bool :=
  named_param_segment seg || plain_string seg.

Definition simple_template (template : string) : bool :=
  forallb simple_segment (segments template).

(** The first segment of [s] and, when a slash ends it, what follows the
    slash. *)
Fixpoint cut (s : string) : string * option string :=
  match s with
  | "" => ("", None)
  | String c rest =>
      if is_slash c then ("", Some rest)
      else let '(seg, tail) := cut rest in (String c seg, tail)
  end.

Fixpoint no_slash (s : string) : bool :=
  match s with
  | "" => true
  | String c rest => negb (is_slash c) && no_slash rest
  end.

(** The program a simple template compiles to, segment by segment. *)
Definition literal_prog (s : string) : list regexp.node :=
  regexp.Lit <$> list_ascii_of_string s.

Definition segment_prog (seg : string) : list regexp.node :=
  if named_param_segment seg then [regexp.Capture ""] else literal_prog seg.

(** The program after the first segment of [ts]. *)
Definition after_segment (rest_prog : list regexp.node) (ts : list string)
  : list regexp.node :=
  match ts with
  | [] => []
  | _ :: _ => regexp.Lit "/" :: rest_prog
  end.

Fixpoint segments_prog (ts : list string) : list regexp.node :=
  match ts with
  | [] => []
  | t :: ts' => segment_prog t ++ after_segment (segments_prog ts') ts'
  end.

Definition is_some {A : Type} (o : option A) : bool :=
  match o with Some _ => true | None => false end.

(** ** Sample routers *)

Definition mkreq (method path : string) (hdrs : list (string * string))
  : events.LambdaFunctionURLRequest :=
  {| events.Method := method; events.Path := path;
     events.ReqHeaders := list_to_map hdrs |}.

(** A handler that answers whether [params["id"]] is ["42"]. *)
Definition user_handler : HandlerFunc sample_data :=
  fun _ params => (DBool (String.eqb (default "" (params !! "id")) "42"), None).

Definition failing_handler (code : Z) (message : string)
  : HandlerFunc sample_data :=
  fun _ _ => (DNil, Some (NewLambdaError code message)).

Definition const_handler (d : sample_data) : HandlerFunc sample_data :=
  fun _ _ => (d, None).

(** [Get("/users/:id", ...)], [Get("/missing", ...)] returning the error
    [{404, "not found"}], [Get("/chan", ...)] returning a channel. *)
Definition sample_router : option (Router sample_data) :=
  r ← Get NewRouter "/users/:id" user_handler;
  r ← Get r "/missing" (failing_handler 404 "not found");
  Get r "/chan" (const_handler DChan).

(** The three routes these calls append. *)
Definition users_route : Route sample_data :=
  {| Method := "GET";
     Pattern := {| regexp.prog := literal_prog "/users/" ++ [regexp.Capture ""] |};
     Handler := user_handler; Template := "/users/:id" |}.

Definition missing_route : Route sample_data :=
  {| Method := "GET"; Pattern := {| regexp.prog := literal_prog "/missing" |};
     Handler := failing_handler 404 "not found"; Template := "/missing" |}.

Definition chan_route : Route sample_data :=
  {| Method := "GET"; Pattern := {| regexp.prog := literal_prog "/chan" |};
     Handler := const_handler DChan; Template := "/chan" |}.

Definition sample_routes : Router sample_data :=
  {| routes := [users_route; missing_route; chan_route];
     Origins := ["*"]; Methods := ["*"]; Headers := ["*"] |}.

(** [Get("/a", ...)] twice, with two handlers. *)
Definition first_a_route : Route sample_data :=
  {| Method := "GET"; Pattern := {| regexp.prog := literal_prog "/a" |};
     Handler := const_handler (DBool true); Template := "/a" |}.

Definition second_a_route : Route sample_data :=
  {| Method := "GET"; Pattern := {| regexp.prog := literal_prog "/a" |};
     Handler := const_handler (DBool false); Template := "/a" |}.

Definition twice_router : Router sample_data :=
  {| routes := [first_a_route; second_a_route];
     Origins := ["*"]; Methods := ["*"]; Headers := ["*"] |}.

(** The router of the README: one origin, two methods, one header. *)
Definition strict_router : Router sample_data :=
  {| routes := []; Origins := ["https://example.com"];
     Methods := ["GET"; "POST"]; Headers := ["Content-Type"] |}.

(** The router after the first [Get("/a", ...)] alone, and after a
    [Post("/a", ...)] on top of it. *)
Definition once_router : Router sample_data :=
  {| routes := [first_a_route];
     Origins := ["*"]; Methods := ["*"]; Headers := ["*"] |}.

Definition post_a_route : Route sample_data :=
  {| Method := "POST"; Pattern := {| regexp.prog := literal_prog "/a" |};
     Handler := const_handler DNil; Template := "/a" |}.

Definition posted_router : Router sample_data :=
  {| routes := [first_a_route; post_a_route];
     Origins := ["*"]; Methods := ["*"]; Headers := ["*"] |}.

(** The pattern of the template /users/(?P<id>[^/]+), whose group is named. *)
Definition named_users_pattern : regexp.Regexp :=
  {| regexp.prog := literal_prog "/users/" ++ [regexp.Capture "id"] |}.

(** ** Record updates used in the statements *)

Definition with_handler {Data : Type} (route : Route Data)
    (h : HandlerFunc Data) : Route Data :=
  {| Method := Method route; Pattern := Pattern route; Handler := h;
     Template := Template route |}.

Definition with_routes {Data : Type} (r : Router Data)
    (rs : list (Route Data)) : Router Data :=
  {| routes := rs; Origins := Origins r; Methods := Methods r;
     Headers := Headers r |}.

(** The test of the route loop. *)
Definition route_matches {Data : Type} (route : Route Data)
    (method path : string) : bool :=
  String.eqb (Method route) method && regexp.MatchString (Pattern route) path.

(** A route as [AddRoute] builds it: its pattern is compiled from its
    template. *)
Definition registered {Data : Type} (route : Route Data) : Prop :=
  buildPathPattern (Template route) = Some (Pattern route).

(** The envelopes of the two fixed answers. *)
Definition not_found_response : events.LambdaFunctionURLResponse :=
  {| events.StatusCode := 404; events.Headers := None;
     events.Body := "Route not found";
     events.IsBase64Encoded := false; events.Cookies := [] |}.

Definition forbidden_response : events.LambdaFunctionURLResponse :=
  {| events.StatusCode := 403; events.Headers := None;
     events.Body := "Origin not allowed";
     events.IsBase64Encoded := false; events.Cookies := [] |}.

(** ** Templates without parameters, and what a match captures *)

(** No colon of [s] starts a parameter: each is followed by a slash or ends
    the text. *)
Fixpoint no_marker (s : string) : bool :=
  match s with
  | "" => true
  | String c rest =>
      (if is_colon c then
         match rest with
         | "" => true
         | String d _ => is_slash d
         end
       else true)
      && no_marker rest
  end.

(** ASCII text without a character [regexp] reads as an operator. *)
Fixpoint literal_text (s : string) : bool :=
  match s with
  | "" => true
  | String c rest => regexp.is_literal c && literal_text rest
  end.

Definition static_template (template : string) : bool :=
  literal_text template && no_marker template.

(** The path segments that face the parameter segments of a template. *)
Fixpoint param_values (ts ps : list string) : list string :=
  match ts, ps with
  | t :: ts', p :: ps' =>
      if named_param_segment t then p :: param_values ts' ps'
      else param_values ts' ps'
  | _, _ => []
  end.

(** The group taken a byte at a time, with no regard for characters. *)
Fixpoint cap_bytes (k : string -> option (list string)) (s : string)
  : option (string * list string) :=
  match s with
  | "" => None
  | String d rest =>
      if is_slash d then None
      else
        match cap_bytes k rest with
        | Some (w, caps) => Some (String d w, caps)
        | None => (fun caps => (String d "", caps)) <$> k rest
        end
  end.

(** The first [n] bytes of [s] are there and are continuation bytes. *)
Fixpoint conts (n : nat) (s : string) : bool :=
  match n, s with
  | O, _ => true
  | S n', String b rest => regexp.is_cont b && conts n' rest
  | S _, "" => false
  end.

(** The named groups entered one after the other, in the order of the
    pattern. *)
Fixpoint bind_groups (names caps : list string) (params : Params) : Params :=
  match names, caps with
  | name :: names', cap :: caps' =>
      bind_groups names' caps'
        (if String.eqb name "" then params else <[name := cap]> params)
  | _, _ => params
  end.

(** A response of [HandleRequest] to a request that is not a preflight is
    one of three. *)
Inductive dispatched {Data : Type} (json_Marshal : Data -> option string)
    (r : Router Data) (req : events.LambdaFunctionURLRequest)
  : events.LambdaFunctionURLResponse -> Prop :=
| dispatched_not_found :
    Forall (fun route => route_matches route (events.Method req)
                           (events.Path req) = false) (routes r) ->
    dispatched json_Marshal r req (attachCORSHeaders r not_found_response req)
| dispatched_error route params data e :
    In route (routes r) ->
    route_matches route (events.Method req) (events.Path req) = true ->
    extractParams (events.Path req) (Pattern route) = Some params ->
    Handler route req params = (data, Some e) ->
    dispatched json_Marshal r req (ErrorResponse e)
| dispatched_success route params data :
    In route (routes r) ->
    route_matches route (events.Method req) (events.Path req) = true ->
    extractParams (events.Path req) (Pattern route) = Some params ->
    Handler route req params = (data, None) ->
    dispatched json_Marshal r req
      (attachCORSHeaders r (SuccessResponse json_Marshal data) req).

(** * Properties *)

(** ** The CORS policy *)
Section Cors.

Context {Data : Type}.
Implicit Types (r : Router Data) (origin : string).

Lemma isOriginAllowed_wildcard r origin :
  Origins r = ["*"] -> isOriginAllowed r origin = true.
Proof. intros E. unfold isOriginAllowed. rewrite E. reflexivity. Qed.

Lemma isOriginAllowed_listed r origin :
  Origins r <> ["*"] ->
  isOriginAllowed r origin = true <-> In origin (Origins r).
Proof.
  intros NE. unfold isOriginAllowed.
  assert (G : (length (Origins r) =? 1)%nat
              && bool_decide (Origins r !! 0%nat = Some "*") = false).
  { destruct (Origins r) as [|o [|o' os]] eqn:E; try reflexivity.
    simpl. apply bool_decide_eq_false. intros [= ->]. now apply NE. }
  rewrite G, existsb_exists. split.
  - intros (o & Hin & Heq). apply String.eqb_eq in Heq. now subst.
  - intros Hin. exists origin. split; [assumption | apply String.eqb_refl].
Qed.

(** C9: only the one-element list ["*"] allows every origin; in a longer
    list an entry "*" is one more literal, and an origin is allowed exactly
    when it is one of the entries. *)
Theorem isOriginAllowed_wildcard_only_alone r :
  (Origins r = ["*"] -> forall origin, isOriginAllowed r origin = true)
  /\ ((2 <= length (Origins r))%nat ->
      forall origin,
        isOriginAllowed r origin = true <-> In origin (Origins r))
  /\ ((forall origin, isOriginAllowed r origin = true) -> Origins r = ["*"]).
Proof.
  split; [| split].
  - intros E origin. now apply isOriginAllowed_wildcard.
  - intros Hlen origin. apply isOriginAllowed_listed.
    intros E. rewrite E in Hlen. simpl in Hlen. lia.
  - intros Hall.
    destruct (decide (Origins r = ["*"])) as [E | NE]; [exact E | exfalso].
    pose proof (infinite_is_fresh (Origins r)) as Hfresh.
    apply Hfresh, list_elem_of_In, (isOriginAllowed_listed r _ NE), Hall.
Qed.

(** C10: [attachCORSHeaders] leaves the status code, the body, the other
    fields and every header but its three untouched. *)
Theorem attachCORSHeaders_frame r response req :
  let response' := attachCORSHeaders r response req in
  events.StatusCode response' = events.StatusCode response
  /\ events.Body response' = events.Body response
  /\ events.IsBase64Encoded response' = events.IsBase64Encoded response
  /\ events.Cookies response' = events.Cookies response
  /\ forall k : string,
       k <> "Access-Control-Allow-Origin" ->
       k <> "Access-Control-Allow-Methods" ->
       k <> "Access-Control-Allow-Headers" ->
       events.header response' k = events.header response k.
Proof.
  simpl. repeat split.
  intros k Ho Hm Hh. unfold events.header, attachCORSHeaders. simpl.
  rewrite !lookup_insert_ne by congruence.
  destruct (events.Headers response); [reflexivity | apply lookup_empty].
Qed.

(** What the three headers are after [attachCORSHeaders]. *)
Lemma attachCORSHeaders_sets r response req :
  let response' := attachCORSHeaders r response req in
  let origin := request_origin req in
  events.header response' "Access-Control-Allow-Origin"
    = Some (if String.eqb origin "" || negb (isOriginAllowed r origin)
            then "*" else origin)
  /\ events.header response' "Access-Control-Allow-Methods"
     = Some (Join (Methods r) ", ")
  /\ events.header response' "Access-Control-Allow-Headers"
     = Some (Join (Headers r) ", ").
Proof.
  unfold events.header, attachCORSHeaders. simpl. repeat split.
  - rewrite !lookup_insert_ne by discriminate. apply lookup_insert_eq.
  - rewrite lookup_insert_ne by discriminate. apply lookup_insert_eq.
  - apply lookup_insert_eq.
Qed.

End Cors.

(** ** Matching and extraction never panic together *)
Section Submatches.

Import regexp.

Lemma cap_greedy_inv k s :
  forall inside w caps,
    cap_greedy k inside s = Some (w, caps) -> exists s', k s' = Some caps.
Proof.
  induction s as [|d rest IH]; intros inside w caps; cbn [cap_greedy];
    [discriminate|].
  destruct ((inside =? 0)%nat && is_slash d); [discriminate|].
  match goal with
  | |- context [cap_greedy k ?left rest] =>
      destruct (cap_greedy k left rest) as [[w' caps']|] eqn:E;
      [intros [= <- <-]; eapply IH, E | destruct (left =? 0)%nat]
  end; [|discriminate].
  destruct (k rest) as [caps'|] eqn:K; simpl; [|discriminate].
  intros [= <- <-]. now exists rest.
Qed.

(** A match yields one text per group. *)
Lemma exec_length p :
  forall s caps, exec p s = Some caps -> length caps = length (group_names p).
Proof.
  induction p as [|n p IH]; intros s caps; simpl.
  - destruct s; [intros [= <-]; reflexivity | discriminate].
  - destruct n as [c| |name].
    + destruct s as [|d rest]; [discriminate|].
      destruct (Ascii.eqb c d); [apply IH | discriminate].
    + destruct s as [|d rest]; [discriminate|].
      destruct (Ascii.eqb d "010"); [discriminate | apply IH].
    + destruct (cap_greedy (exec p) 0 s) as [[w caps']|] eqn:E; [|discriminate].
      simpl. intros [= <-]. simpl. f_equal.
      destruct (cap_greedy_inv _ _ _ _ _ E) as [s' Hs']. eapply IH, Hs'.
Qed.

Lemma extractParams_loop_total matches names :
  forall i params,
    (i + length names <= length matches)%nat ->
    is_Some (extractParams_loop matches i names params).
Proof.
  induction names as [|name rest IH]; intros i params Hlen; simpl.
  - eauto.
  - simpl in Hlen.
    destruct ((0 <? i)%nat && negb (String.eqb name "")).
    + destruct (lookup_lt_is_Some_2 matches i) as [v ->]; [lia|].
      apply IH. lia.
    + apply IH. lia.
Qed.

(** After [MatchString] has accepted the path, no index of [extractParams]
    is out of range. *)
Lemma extractParams_total re path :
  MatchString re path = true -> is_Some (extractParams path re).
Proof.
  unfold MatchString, extractParams, FindStringSubmatch, SubexpNames.
  destruct (exec (prog re) path) as [caps|] eqn:E; [intros _ | discriminate].
  apply extractParams_loop_total. simpl.
  rewrite (exec_length _ _ _ E). lia.
Qed.

(** With no named group, nothing is entered in the params. *)
Lemma extractParams_loop_unnamed matches names :
  Forall (fun name => name = "") names ->
  forall i params, extractParams_loop matches i names params = Some params.
Proof.
  induction 1 as [|name rest -> _ IH]; intros i params; simpl.
  - reflexivity.
  - rewrite andb_false_r. apply IH.
Qed.

End Submatches.

(** ** The dispatcher *)
Section Dispatch.

Context {Data : Type} (json_Marshal : Data -> option string).
Implicit Types (r : Router Data) (route : Route Data)
  (req : events.LambdaFunctionURLRequest).

Lemma method_eqb_false (method : string) :
  method <> "OPTIONS" -> String.eqb method "OPTIONS" = false.
Proof. apply String.eqb_neq. Qed.

(** The loop passes over the routes that do not match. *)
Lemma HandleRequest_loop_skip req path method pre rs :
  Forall (fun route => route_matches route method path = false) pre ->
  HandleRequest_loop json_Marshal req path method (pre ++ rs)
  = HandleRequest_loop json_Marshal req path method rs.
Proof.
  induction 1 as [|route pre Hroute _ IH]; simpl; [reflexivity|].
  unfold route_matches in Hroute. rewrite Hroute. exact IH.
Qed.

Lemma HandleRequest_loop_none req path method rs :
  Forall (fun route => route_matches route method path = false) rs ->
  HandleRequest_loop json_Marshal req path method rs
  = Some (Continued events.zero).
Proof.
  intros H. rewrite <- (app_nil_r rs).
  now rewrite HandleRequest_loop_skip.
Qed.

(** The loop stops at the first route that matches and runs its handler. *)
Lemma HandleRequest_loop_first req path method pre route post :
  Forall (fun x => route_matches x method path = false) pre ->
  route_matches route method path = true ->
  exists params,
    extractParams path (Pattern route) = Some params
    /\ HandleRequest_loop json_Marshal req path method (pre ++ route :: post)
       = Some (match Handler route req params with
               | (_, Some e) => Returned (ErrorResponse e)
               | (data, None) => Continued (SuccessResponse json_Marshal data)
               end).
Proof.
  intros Hpre Hroute. rewrite HandleRequest_loop_skip by assumption.
  simpl. unfold route_matches in Hroute. rewrite Hroute.
  apply andb_true_iff in Hroute as [_ Hm].
  destruct (extractParams_total _ _ Hm) as [params ->].
  exists params. split; [reflexivity|]. simpl.
  destruct (Handler route req params) as [data [e|]]; reflexivity.
Qed.

(** The whole dispatch on a request that is not a preflight and whose first
    matching route is [route]. *)
Lemma HandleRequest_first r req pre route post :
  events.Method req <> "OPTIONS" ->
  routes r = (pre ++ route :: post)%list ->
  Forall (fun x => route_matches x (events.Method req) (events.Path req)
                   = false) pre ->
  route_matches route (events.Method req) (events.Path req) = true ->
  exists params,
    extractParams (events.Path req) (Pattern route) = Some params
    /\ HandleRequest json_Marshal r req
       = Some (match Handler route req params with
               | (_, Some e) => ErrorResponse e
               | (data, None) =>
                   attachCORSHeaders r (SuccessResponse json_Marshal data) req
               end).
Proof.
  intros Hm Hr Hpre Hroute.
  destruct (HandleRequest_loop_first req _ _ pre route post Hpre Hroute)
    as (params & Hparams & Hloop).
  exists params. split; [exact Hparams|].
  unfold HandleRequest. rewrite (method_eqb_false _ Hm), Hr, Hloop. simpl.
  destruct (Handler route req params) as [data [e|]]; reflexivity.
Qed.

(** C8: when the handler of the matched route returns the error [e], the
    envelope has the status code [Code e] and the body "Error: " followed
    by [Message e]. *)
Theorem handler_error_envelope r req pre route post :
  events.Method req <> "OPTIONS" ->
  routes r = (pre ++ route :: post)%list ->
  Forall (fun x => route_matches x (events.Method req) (events.Path req)
                   = false) pre ->
  route_matches route (events.Method req) (events.Path req) = true ->
  exists params,
    extractParams (events.Path req) (Pattern route) = Some params
    /\ forall data e,
         Handler route req params = (data, Some e) ->
         exists resp,
           HandleRequest json_Marshal r req = Some resp
           /\ events.StatusCode resp = Code e
           /\ events.Body resp = "Error: " +:+ Message e.
Proof.
  intros Hm Hr Hpre Hroute.
  destruct (HandleRequest_first r req pre route post Hm Hr Hpre Hroute)
    as (params & Hparams & Hres).
  exists params. split; [exact Hparams|].
  intros data e He. rewrite He in Hres.
  exists (ErrorResponse e). repeat split. exact Hres.
Qed.

(** C4, amended: a request whose method is not OPTIONS and that no route
    matches gets the status code 404 and the body "Route not found". *)
Theorem unmatched_request_not_found r req :
  events.Method req <> "OPTIONS" ->
  Forall (fun route => route_matches route (events.Method req)
                         (events.Path req) = false) (routes r) ->
  exists resp,
    HandleRequest json_Marshal r req = Some resp
    /\ resp = attachCORSHeaders r not_found_response req
    /\ events.StatusCode resp = 404
    /\ events.Body resp = "Route not found".
Proof.
  intros Hm Hnone. eexists. split; [|repeat split].
  unfold HandleRequest.
  rewrite (method_eqb_false _ Hm), HandleRequest_loop_none by assumption.
  reflexivity.
Qed.

(** C7: an OPTIONS request is answered by [corsPreflightResponse] alone:
    the answer is the same for every route table and every path, and is
    fixed by the three CORS lists and the origin header; 403 without
    headers when the origin is not allowed, else 200 with the origin and
    the joined lists. *)
Theorem options_answered_by_cors_policy r req :
  events.Method req = "OPTIONS" ->
  HandleRequest json_Marshal r req = Some (corsPreflightResponse r req)
  /\ (forall r' req',
        events.Method req' = "OPTIONS" ->
        Origins r' = Origins r -> Methods r' = Methods r ->
        Headers r' = Headers r ->
        request_origin req' = request_origin req ->
        HandleRequest json_Marshal r' req' = HandleRequest json_Marshal r req)
  /\ (isOriginAllowed r (request_origin req) = false ->
      HandleRequest json_Marshal r req = Some forbidden_response)
  /\ (isOriginAllowed r (request_origin req) = true ->
      HandleRequest json_Marshal r req
      = Some {| events.StatusCode := 200;
                events.Headers := Some
                  (<["Access-Control-Allow-Headers" := Join (Headers r) ", "]>
                    (<["Access-Control-Allow-Methods" := Join (Methods r) ", "]>
                      (<["Access-Control-Allow-Origin" := request_origin req]>
                         ∅)));
                events.Body := "";
                events.IsBase64Encoded := false; events.Cookies := [] |}).
Proof.
  intros Hm.
  assert (H0 : forall r0 req0, events.Method req0 = "OPTIONS" ->
            HandleRequest json_Marshal r0 req0
            = Some (corsPreflightResponse r0 req0)).
  { intros r0 req0 E. unfold HandleRequest. now rewrite E. }
  split; [now apply H0 | split; [| split]].
  - intros r' req' Hm' Eo Em Eh Er. rewrite !H0 by assumption.
    unfold corsPreflightResponse, isOriginAllowed.
    now rewrite Eo, Em, Eh, Er.
  - intros Hno. rewrite H0 by assumption.
    unfold corsPreflightResponse. now rewrite Hno.
  - intros Hyes. rewrite H0 by assumption.
    unfold corsPreflightResponse. now rewrite Hyes.
Qed.

End Dispatch.

Section Lookup.

Context {Data : Type} (json_Marshal : Data -> option string).
Implicit Types (r : Router Data) (route : Route Data)
  (req : events.LambdaFunctionURLRequest).

Lemma HandleRequest_loop_app req path method pre rs rs' :
  HandleRequest_loop json_Marshal req path method rs
  = HandleRequest_loop json_Marshal req path method rs' ->
  HandleRequest_loop json_Marshal req path method (pre ++ rs)
  = HandleRequest_loop json_Marshal req path method (pre ++ rs').
Proof.
  intros E. induction pre as [|route pre IH]; simpl; [exact E|].
  now rewrite IH.
Qed.

(** What [AddRoute] appends is a registered route with the given method,
    template and handler; the CORS lists are kept. *)
Lemma AddRoute_appends r method path handler r' :
  AddRoute r method path handler = Some r' ->
  exists route,
    routes r' = (routes r ++ [route])%list
    /\ registered route
    /\ Method route = method /\ Template route = path
    /\ Handler route = handler
    /\ Origins r' = Origins r /\ Methods r' = Methods r
    /\ Headers r' = Headers r.
Proof.
  unfold AddRoute.
  destruct (buildPathPattern path) as [pattern|] eqn:E; [|discriminate].
  simpl. intros [= <-]. eexists. repeat split. exact E.
Qed.

(** Behind a route with the same method and pattern, the handler of a route
    has no part in the outcome of the loop. *)
Lemma HandleRequest_loop_shadow req path method (r1 r2 : Route Data) mid post h :
  Method r1 = Method r2 -> Pattern r1 = Pattern r2 ->
  HandleRequest_loop json_Marshal req path method
    (r1 :: mid ++ with_handler r2 h :: post)
  = HandleRequest_loop json_Marshal req path method (r1 :: mid ++ r2 :: post).
Proof.
  intros Em Ep. simpl.
  destruct (String.eqb (Method r1) method
            && regexp.MatchString (Pattern r1) path) eqn:E; [reflexivity|].
  apply HandleRequest_loop_app. simpl. now rewrite <- Em, <- Ep, E.
Qed.

(** C6: the first route, in the order of registration, whose method is the
    request's and whose pattern accepts the path is the one whose handler
    runs; a route registered after one with the same method and template
    never takes part: whatever its handler, every request is answered the
    same. *)
Theorem lookup_takes_first_registered r :
  (forall req pre route post,
      events.Method req <> "OPTIONS" ->
      routes r = (pre ++ route :: post)%list ->
      Forall (fun x => route_matches x (events.Method req) (events.Path req)
                       = false) pre ->
      route_matches route (events.Method req) (events.Path req) = true ->
      exists params,
        extractParams (events.Path req) (Pattern route) = Some params
        /\ HandleRequest json_Marshal r req
           = Some (match Handler route req params with
                   | (_, Some e) => ErrorResponse e
                   | (data, None) =>
                       attachCORSHeaders r
                         (SuccessResponse json_Marshal data) req
                   end))
  /\ (forall pre (r1 : Route Data) mid (r2 : Route Data) post,
        routes r = (pre ++ r1 :: mid ++ r2 :: post)%list ->
        registered r1 -> registered r2 ->
        Method r1 = Method r2 -> Template r1 = Template r2 ->
        forall h req,
          HandleRequest json_Marshal
            (with_routes r (pre ++ r1 :: mid ++ with_handler r2 h :: post)) req
          = HandleRequest json_Marshal r req).
Proof.
  split.
  - intros req pre route post. apply HandleRequest_first.
  - intros pre r1 mid r2 post Hr Hreg1 Hreg2 Em Et h req.
    assert (Ep : Pattern r1 = Pattern r2).
    { unfold registered in Hreg1, Hreg2. rewrite Et in Hreg1. congruence. }
    unfold HandleRequest. simpl.
    destruct (String.eqb (events.Method req) "OPTIONS"); [reflexivity|].
    rewrite Hr.
    rewrite (HandleRequest_loop_app req _ _ pre _ _
               (HandleRequest_loop_shadow req _ _ r1 r2 mid post h Em Ep)).
    reflexivity.
Qed.

(** C3, amended: when [json.Marshal] fails on the value a handler returned,
    the error is dropped: the envelope has the status code 200, the header
    Content-Type: application/json and an empty body. *)
Theorem marshal_failure_gives_empty_200 r req pre route post :
  events.Method req <> "OPTIONS" ->
  routes r = (pre ++ route :: post)%list ->
  Forall (fun x => route_matches x (events.Method req) (events.Path req)
                   = false) pre ->
  route_matches route (events.Method req) (events.Path req) = true ->
  exists params,
    extractParams (events.Path req) (Pattern route) = Some params
    /\ forall data,
         Handler route req params = (data, None) ->
         json_Marshal data = None ->
         exists resp,
           HandleRequest json_Marshal r req = Some resp
           /\ events.StatusCode resp = 200
           /\ events.Body resp = ""
           /\ events.header resp "Content-Type" = Some "application/json".
Proof.
  intros Hm Hr Hpre Hroute.
  destruct (HandleRequest_first json_Marshal r req pre route post
              Hm Hr Hpre Hroute) as (params & Hparams & Hres).
  exists params. split; [exact Hparams|].
  intros data Hd Hfail. rewrite Hd in Hres.
  eexists. split; [exact Hres|].
  unfold events.header, attachCORSHeaders, SuccessResponse. simpl.
  rewrite Hfail. repeat split.
Qed.

End Lookup.

(** ** Simple templates: what the compiled pattern accepts *)
Section Templates.

Import regexp.

Lemma is_slash_eq c : is_slash c = true -> c = "/"%char.
Proof. apply Ascii.eqb_eq. Qed.

Lemma segments_nonempty s : segments s <> [].
Proof.
  destruct s as [|c rest]; simpl; [discriminate|].
  destruct (is_slash c); [discriminate|].
  destruct (segments rest); discriminate.
Qed.

Lemma segments_cut s :
  segments s
  = (cut s).1 :: match (cut s).2 with Some r => segments r | None => [] end.
Proof.
  induction s as [|c rest IH]; simpl; [reflexivity|].
  destruct (is_slash c); [reflexivity|].
  rewrite IH. destruct (cut rest) as [seg tail]. reflexivity.
Qed.

Lemma segments_no_slash s : Forall (fun seg => no_slash seg = true) (segments s).
Proof.
  induction s as [|c rest IH]; simpl.
  - repeat constructor.
  - destruct (is_slash c) eqn:Ec.
    + constructor; [reflexivity | exact IH].
    + destruct (segments rest) as [|seg segs]; inversion IH; subst;
        constructor; simpl; rewrite ?Ec; auto.
Qed.

Lemma literal_parse c rest :
  is_literal c = true ->
  parse 0 (String c rest) = cons (Lit c) <$> parse 0 rest.
Proof.
  intros Hlit. pose proof Hlit as H. unfold is_literal in H.
  apply andb_true_iff in H as [Hmeta _]. apply negb_true_iff in Hmeta.
  cbn [parse].
  assert (Hne : forall m, In m meta_chars -> Ascii.eqb c m = false).
  { intros m Hm. destruct (Ascii.eqb c m) eqn:E; [|reflexivity].
    unfold is_meta in Hmeta.
    assert (X : existsb (Ascii.eqb c) meta_chars = true).
    { apply existsb_exists. eauto. }
    congruence. }
  rewrite (Hne "$"%char), (Hne "."%char), (Hne "("%char), Hlit;
    [reflexivity | unfold meta_chars; simpl; tauto ..].
Qed.

Lemma plain_char_parse c rest :
  plain_char c = true ->
  parse 0 (String c rest) = cons (Lit c) <$> parse 0 rest.
Proof.
  unfold plain_char. intros H. apply andb_true_iff in H as [Hlit _].
  now apply literal_parse.
Qed.

Lemma slash_parse rest :
  parse 0 (String "/" rest) = cons (Lit "/") <$> parse 0 rest.
Proof. apply plain_char_parse. reflexivity. Qed.

Lemma group_parse rest :
  parse 0 (String "(" group_body +:+ rest) = cons (Capture "") <$> parse 0 rest.
Proof. reflexivity. Qed.

Lemma plain_string_not_param seg :
  plain_string seg = true -> named_param_segment seg = false.
Proof.
  destruct seg as [|c [|d seg]]; simpl; try reflexivity.
  intros H. apply andb_true_iff in H as [H _]. unfold plain_char in H.
  apply andb_true_iff in H as [_ H]. now apply negb_true_iff in H.
Qed.

Lemma plain_string_not_colon seg :
  plain_string seg = true -> is_param_segment seg = false.
Proof.
  destruct seg as [|c seg]; simpl; [reflexivity|].
  intros H. apply andb_true_iff in H as [H _]. unfold plain_char in H.
  apply andb_true_iff in H as [_ H]. now apply negb_true_iff in H.
Qed.

Lemma named_param_is_param seg :
  named_param_segment seg = true -> is_param_segment seg = true.
Proof. destruct seg as [|c [|d seg]]; simpl; congruence. Qed.

Lemma append_cons c (s t : string) : String c s +:+ t = String c (s +:+ t).
Proof. reflexivity. Qed.

Lemma simple_segment_cons_colon c seg :
  is_colon c = true -> simple_segment (String c seg) = true ->
  exists d seg', seg = String d seg'.
Proof.
  intros Hc. unfold simple_segment. simpl.
  unfold plain_char. rewrite Hc. cbn [negb]. rewrite andb_false_r, orb_false_r.
  simpl.
  destruct seg as [|d seg']; [discriminate | eauto].
Qed.

Lemma simple_segment_cons_plain c seg :
  is_colon c = false -> simple_segment (String c seg) = true ->
  plain_char c = true /\ plain_string seg = true.
Proof.
  intros Hc. unfold simple_segment.
  replace (named_param_segment (String c seg)) with false
    by (simpl; rewrite Hc; now destruct seg).
  simpl. apply andb_true_iff.
Qed.

(** The text [buildPathPattern] hands to the compiler, parsed: from the
    start of a segment, and from inside the name of a parameter. *)
Lemma template_parse s :
  (forallb simple_segment (segments s) = true ->
   parse 0 (ReplaceAllString_params false s +:+ "$")
   = Some (segments_prog (segments s)))
  /\ (forallb simple_segment (tail (segments s)) = true ->
      parse 0 (ReplaceAllString_params true s +:+ "$")
      = Some (after_segment (segments_prog (tail (segments s)))
                (tail (segments s)))).
Proof.
  induction s as [|c rest [IHP IHQ]]; [split; reflexivity|].
  pose proof (segments_nonempty rest) as Hne.
  simpl segments. simpl ReplaceAllString_params.
  destruct (is_slash c) eqn:Eslash.
  - apply is_slash_eq in Eslash as ->.
    split; simpl; intros H; rewrite (IHP H);
      destruct (segments rest); congruence || reflexivity.
  - destruct (segments rest) as [|seg segs] eqn:Esegs; [congruence|].
    split; [|exact IHQ].
    simpl. intros H. apply andb_true_iff in H as [Hseg Hsegs].
    destruct (is_colon c) eqn:Ecolon.
    + destruct (simple_segment_cons_colon c seg Ecolon Hseg)
        as (d & seg' & ->).
      destruct rest as [|d' rest']; [discriminate|].
      destruct (is_slash d') eqn:Ed'.
      { simpl in Esegs. rewrite Ed' in Esegs. discriminate. }
      change ((String "(" group_body
               +:+ ReplaceAllString_params true (String d' rest')) +:+ "$")
        with (String "(" group_body
              +:+ (ReplaceAllString_params true (String d' rest') +:+ "$")).
      rewrite group_parse, (IHQ Hsegs).
      unfold segment_prog. simpl. now rewrite Ecolon.
    + destruct (simple_segment_cons_plain c seg Ecolon Hseg) as [Hc Hplain].
      rewrite append_cons, (plain_char_parse _ _ Hc), IHP.
      * assert (Hn : named_param_segment (String c seg) = false)
          by (simpl; rewrite Ecolon; now destruct seg).
        simpl. unfold segment_prog.
        now rewrite Hn, (plain_string_not_param _ Hplain).
      * simpl. unfold simple_segment at 1.
        now rewrite Hplain, orb_true_r.
Qed.

Lemma simple_template_compiles template :
  simple_template template = true ->
  buildPathPattern template
  = Some {| prog := segments_prog (segments template) |}.
Proof.
  intros H. unfold buildPathPattern, MustCompile.
  change ("^" +:+ ReplaceAllString_params false template +:+ "$")
    with (String "^" (ReplaceAllString_params false template +:+ "$")).
  unfold Compile.
  now rewrite (proj1 (template_parse template) H).
Qed.

#[local] Arguments Ascii.eqb : simpl never.

Lemma byte_in_bounds lo hi c :
  byte_in lo hi c = true <-> (lo <= nat_of_ascii c <= hi)%nat.
Proof.
  unfold byte_in. rewrite andb_true_iff, !Nat.leb_le. reflexivity.
Qed.

Lemma second_ok_cont lead b : second_ok lead b = true -> is_cont b = true.
Proof.
  unfold second_ok, is_cont.
  repeat match goal with
         | |- context [if ?t then _ else _] => destruct t
         end;
    rewrite !byte_in_bounds; lia.
Qed.

Lemma is_cont_not_slash b : is_cont b = true -> is_slash b = false.
Proof.
  intros H. destruct (is_slash b) eqn:E; [|reflexivity].
  apply is_slash_eq in E. subst b. discriminate H.
Qed.

(** The bytes of a character after its first are continuation bytes. *)
Lemma rune_width_conts d rest :
  conts (rune_width (String d rest) - 1) rest = true.
Proof.
  unfold rune_width.
  destruct (rune_size d) as [|[|[|[|[|n]]]]]; try reflexivity.
  - destruct rest as [|b1 rest]; [reflexivity|].
    destruct (second_ok d b1) eqn:E1; [|reflexivity].
    cbn [Nat.sub conts]. now rewrite (second_ok_cont _ _ E1).
  - destruct rest as [|b1 [|b2 rest]]; try reflexivity.
    destruct (second_ok d b1) eqn:E1; [|reflexivity].
    destruct (is_cont b2) eqn:E2; [|reflexivity].
    cbn [andb Nat.sub conts]. now rewrite (second_ok_cont _ _ E1), E2.
  - destruct rest as [|b1 [|b2 [|b3 rest]]]; try reflexivity.
    destruct (second_ok d b1) eqn:E1; [|reflexivity].
    destruct (is_cont b2) eqn:E2; [|reflexivity].
    destruct (is_cont b3) eqn:E3; [|reflexivity].
    cbn [andb Nat.sub conts]. now rewrite (second_ok_cont _ _ E1), E2, E3.
Qed.

(** When what follows the group cannot start inside a character, taking the
    group a character at a time is taking it a byte at a time. *)
Lemma cap_greedy_bytes k :
  (forall d rest, is_cont d = true -> k (String d rest) = None) ->
  forall s inside,
    conts inside s = true -> cap_greedy k inside s = cap_bytes k s.
Proof.
  intros Hk. induction s as [|d rest IH]; intros inside Hin; [reflexivity|].
  cbn [cap_greedy cap_bytes].
  assert (Hleft : forall left,
             conts left rest = true ->
             match cap_greedy k left rest with
             | Some (w, caps) => Some (String d w, caps)
             | None =>
                 if (left =? 0)%nat
                 then (fun caps => (String d "", caps)) <$> k rest
                 else None
             end
             = match cap_bytes k rest with
               | Some (w, caps) => Some (String d w, caps)
               | None => (fun caps => (String d "", caps)) <$> k rest
               end).
  { intros left Hleft. rewrite (IH left Hleft).
    destruct (cap_bytes k rest) as [[w caps]|]; [reflexivity|].
    destruct left as [|left]; [reflexivity|].
    destruct rest as [|b rest']; [discriminate|].
    cbn [conts] in Hleft. apply andb_true_iff in Hleft as [Hb _].
    cbn [Nat.eqb]. now rewrite (Hk _ _ Hb). }
  destruct inside as [|n].
  - cbn [Nat.eqb andb]. destruct (is_slash d); [reflexivity|].
    apply Hleft, rune_width_conts.
  - cbn [Nat.eqb andb conts] in Hin |- *.
    apply andb_true_iff in Hin as [Hd Hrest].
    rewrite (is_cont_not_slash _ Hd). now apply Hleft.
Qed.

(** The group as the last thing of a pattern takes a whole path of one
    segment, if it is not empty. *)
Lemma cap_bytes_last s :
  cap_bytes (exec []) s
  = match cut s with
    | (seg, None) => if String.eqb seg "" then None else Some (seg, [])
    | (_, Some _) => None
    end.
Proof.
  induction s as [|d rest IH]; cbn [cap_bytes cut]; [reflexivity|].
  destruct (is_slash d); [reflexivity|].
  rewrite IH. clear IH.
  destruct rest as [|e rest']; cbn [cut exec]; [reflexivity|].
  destruct (is_slash e); [reflexivity|].
  destruct (cut rest') as [seg [r|]]; reflexivity.
Qed.

Lemma cap_greedy_last s :
  cap_greedy (exec []) 0 s
  = match cut s with
    | (seg, None) => if String.eqb seg "" then None else Some (seg, [])
    | (_, Some _) => None
    end.
Proof.
  rewrite cap_greedy_bytes; [apply cap_bytes_last | | reflexivity].
  reflexivity.
Qed.

(** The group before a slash takes the first segment, if it is not empty. *)
Lemma cap_bytes_slash p s :
  cap_bytes (exec (Lit "/" :: p)) s
  = match cut s with
    | (seg, Some r) =>
        if String.eqb seg "" then None
        else (fun caps => (seg, caps)) <$> exec p r
    | (_, None) => None
    end.
Proof.
  induction s as [|d rest IH]; cbn [cap_bytes cut]; [reflexivity|].
  destruct (is_slash d); [reflexivity|].
  rewrite IH. clear IH.
  destruct rest as [|e rest']; cbn [cut exec]; [reflexivity|].
  destruct (is_slash e) eqn:Ee.
  - apply is_slash_eq in Ee as ->. reflexivity.
  - assert (Hne : Ascii.eqb "/" e = false).
    { rewrite Ascii.eqb_sym. exact Ee. }
    rewrite Hne.
    destruct (cut rest') as [seg [r|]]; cbn; [|reflexivity].
    destruct (exec p r); reflexivity.
Qed.

Lemma cap_greedy_slash p s :
  cap_greedy (exec (Lit "/" :: p)) 0 s
  = match cut s with
    | (seg, Some r) =>
        if String.eqb seg "" then None
        else (fun caps => (seg, caps)) <$> exec p r
    | (_, None) => None
    end.
Proof.
  rewrite cap_greedy_bytes; [apply cap_bytes_slash | | reflexivity].
  intros d rest Hd. cbn [exec].
  apply is_cont_not_slash in Hd. unfold is_slash in Hd.
  now rewrite Ascii.eqb_sym, Hd.
Qed.

Lemma exec_literal_last t :
  no_slash t = true ->
  forall s,
    exec (literal_prog t) s
    = match cut s with
      | (seg, None) => if String.eqb seg t then Some [] else None
      | (_, Some _) => None
      end.
Proof.
  induction t as [|c t IH]; simpl; intros Ht s.
  - destruct s as [|d rest]; simpl; [reflexivity|].
    destruct (is_slash d); [reflexivity|].
    destruct (cut rest) as [seg [r|]]; reflexivity.
  - apply andb_true_iff in Ht as [Hc Ht]. apply negb_true_iff in Hc.
    destruct s as [|d rest]; simpl; [reflexivity|].
    change (Lit <$> list_ascii_of_string t) with (literal_prog t).
    destruct (Ascii.eqb c d) eqn:Ecd.
    + apply Ascii.eqb_eq in Ecd as <-. rewrite Hc, (IH Ht).
      destruct (cut rest) as [seg [r|]]; simpl; [reflexivity|].
      now rewrite Ascii.eqb_refl.
    + destruct (is_slash d); [reflexivity|].
      destruct (cut rest) as [seg [r|]]; simpl; [reflexivity|].
      rewrite Ascii.eqb_sym, Ecd. reflexivity.
Qed.

Lemma exec_literal_slash t p :
  no_slash t = true ->
  forall s,
    exec (literal_prog t ++ Lit "/" :: p) s
    = match cut s with
      | (seg, Some r) => if String.eqb seg t then exec p r else None
      | (_, None) => None
      end.
Proof.
  induction t as [|c t IH]; simpl; intros Ht s.
  - destruct s as [|d rest]; simpl; [reflexivity|].
    destruct (is_slash d) eqn:Ed.
    + apply is_slash_eq in Ed as ->. reflexivity.
    + rewrite Ascii.eqb_sym. fold (is_slash d). rewrite Ed.
      destruct (cut rest) as [seg [r|]]; reflexivity.
  - apply andb_true_iff in Ht as [Hc Ht]. apply negb_true_iff in Hc.
    destruct s as [|d rest]; simpl; [reflexivity|].
    change (Lit <$> list_ascii_of_string t) with (literal_prog t).
    destruct (Ascii.eqb c d) eqn:Ecd.
    + apply Ascii.eqb_eq in Ecd as <-. rewrite Hc, (IH Ht).
      destruct (cut rest) as [seg [r|]]; simpl; [|reflexivity].
      now rewrite Ascii.eqb_refl.
    + destruct (is_slash d); [reflexivity|].
      destruct (cut rest) as [seg [r|]]; simpl; [|reflexivity].
      rewrite Ascii.eqb_sym, Ecd. reflexivity.
Qed.

Lemma exec_capture name p s :
  exec (Capture name :: p) s
  = (fun wc : string * list string => wc.1 :: wc.2)
      <$> cap_greedy (exec p) 0 s.
Proof. reflexivity. Qed.

Lemma segments_accept_nil_tail (tail : option string) :
  segments_accept []
    match tail with Some r => segments r | None => [] end
  = match tail with Some _ => false | None => true end.
Proof.
  destruct tail as [r|]; [|reflexivity].
  pose proof (segments_nonempty r). now destruct (segments r).
Qed.

(** The program of a list of simple segments accepts the paths that the
    segment-wise comparison accepts. *)
Lemma exec_segments ts :
  Forall (fun t => no_slash t = true) ts ->
  forallb simple_segment ts = true ->
  ts <> [] ->
  forall path,
    is_some (exec (segments_prog ts) path)
    = segments_accept ts (segments path).
Proof.
  induction 1 as [|t ts Ht Hts IH]; [congruence|].
  intros Hsimple _ path. simpl in Hsimple.
  apply andb_true_iff in Hsimple as [Hsimple_t Hsimple_ts].
  rewrite segments_cut. cbn [segments_prog segments_accept].
  unfold segment_prog, segment_accepts.
  destruct (named_param_segment t) eqn:Eparam.
  - rewrite (named_param_is_param _ Eparam).
    destruct ts as [|t' ts'].
    + cbn [after_segment app]. rewrite exec_capture, cap_greedy_last.
      destruct (cut path) as [seg tail]. cbn [fst snd].
      rewrite segments_accept_nil_tail.
      destruct tail; [now rewrite andb_false_r|].
      now destruct (String.eqb seg "").
    + cbn [after_segment app]. rewrite exec_capture, cap_greedy_slash.
      destruct (cut path) as [seg [r|]]; cbn [fst snd];
        [|now destruct (String.eqb seg "")].
      destruct (String.eqb seg ""); [reflexivity|]. cbn [negb andb].
      rewrite <- (IH Hsimple_ts ltac:(discriminate) r).
      now destruct (exec (segments_prog (t' :: ts')) r).
  - unfold simple_segment in Hsimple_t. rewrite Eparam in Hsimple_t.
    simpl in Hsimple_t. rewrite (plain_string_not_colon _ Hsimple_t).
    destruct ts as [|t' ts'].
    + cbn [after_segment]. rewrite app_nil_r, (exec_literal_last _ Ht).
      destruct (cut path) as [seg tail]. cbn [fst snd].
      rewrite segments_accept_nil_tail, (String.eqb_sym t seg).
      destruct tail; [now rewrite andb_false_r|].
      now destruct (String.eqb seg t).
    + cbn [after_segment]. rewrite (exec_literal_slash _ _ Ht).
      rewrite (String.eqb_sym t).
      destruct (cut path) as [seg [r|]]; cbn [fst snd];
        [|now destruct (String.eqb seg t)].
      destruct (String.eqb seg t); [|reflexivity]. cbn [andb].
      apply (IH Hsimple_ts ltac:(discriminate)).
Qed.

(** C5, amended: for a template whose segments are each either a colon
    followed by a name, or ASCII text free of colons and of pattern
    operators, the compiled matcher accepts a path (any bytes) exactly when
    path and template have the same number of segments, every literal
    segment equals the path's and every parameter segment faces a non-empty
    one; the whole path is matched. *)
Theorem simple_template_matches_by_segments template :
  simple_template template = true ->
  exists re,
    buildPathPattern template = Some re
    /\ forall path, MatchString re path = spec_matches template path.
Proof.
  intros Hsimple. eexists. split.
  - apply simple_template_compiles, Hsimple.
  - intros path. unfold spec_matches.
    rewrite <- exec_segments;
      [reflexivity | apply segments_no_slash | exact Hsimple
      | apply segments_nonempty].
Qed.

End Templates.

(** ** The sample routers at work *)

Lemma sample_router_routes : sample_router = Some sample_routes.
Proof. reflexivity. Qed.

Lemma twice_router_registered :
  (r ← Get NewRouter "/a" (const_handler (DBool true));
   Get r "/a" (const_handler (DBool false))) = Some twice_router.
Proof. reflexivity. Qed.

(** No template of simple segments names a group, so [extractParams] enters
    nothing for it. *)
Lemma segments_prog_unnamed ts :
  Forall (fun name => name = "") (regexp.group_names (segments_prog ts)).
Proof.
  assert (L : forall s p, regexp.group_names (literal_prog s ++ p)
                          = regexp.group_names p).
  { intros s p. unfold literal_prog.
    induction (list_ascii_of_string s) as [|c l IH]; [reflexivity | exact IH]. }
  induction ts as [|t ts IH]; simpl; [constructor|].
  assert (G : Forall (fun name => name = "")
                (regexp.group_names (after_segment (segments_prog ts) ts))).
  { destruct ts; [constructor | exact IH]. }
  unfold segment_prog. destruct (named_param_segment t).
  - simpl. constructor; [reflexivity | exact G].
  - now rewrite L.
Qed.

Lemma simple_template_params_empty template :
  simple_template template = true ->
  exists re,
    buildPathPattern template = Some re
    /\ forall path, extractParams path re = Some ∅.
Proof.
  intros H. eexists. split; [apply simple_template_compiles, H|].
  intros path. unfold extractParams, regexp.SubexpNames.
  apply extractParams_loop_unnamed. constructor; [reflexivity|].
  apply segments_prog_unnamed.
Qed.

(** C1: with GET /users/:id registered, the request GET /users/42 is matched,
    with "42" as the text of the group, but the group has no name: the
    handler is given empty params, not the params with "id" bound to "42". *)
Theorem users_id_request_gets_no_params :
  exists re,
    buildPathPattern "/users/:id" = Some re
    /\ regexp.FindStringSubmatch re "/users/42" = Some ["/users/42"; "42"]
    /\ regexp.SubexpNames re = [""; ""]
    /\ extractParams "/users/42" re = Some ∅
    /\ events.Body
         <$> HandleRequest sample_Marshal sample_routes
               (mkreq "GET" "/users/42" [])
       = Some "false".
Proof. eexists. split; [reflexivity|]. repeat split. Qed.

(** A group that carries its name is entered in the params. *)
Example named_group_binds_param :
  (re ← buildPathPattern "/users/(?P<id>[^/]+)"; extractParams "/users/42" re)
  = Some {[ "id" := "42" ]}.
Proof. vm_compute. reflexivity. Qed.

(** C2: the envelope of a handler error leaves [HandleRequest] by the
    [return] inside the loop and carries none of the three CORS headers. *)
Theorem handler_error_skips_cors_headers :
  let req := mkreq "GET" "/missing" [("origin", "https://example.com")] in
  exists resp,
    HandleRequest sample_Marshal sample_routes req = Some resp
    /\ resp = ErrorResponse (NewLambdaError 404 "not found")
    /\ events.header resp "Access-Control-Allow-Origin" = None
    /\ events.header resp "Access-Control-Allow-Methods" = None
    /\ events.header resp "Access-Control-Allow-Headers" = None.
Proof. eexists. split; [reflexivity|]. repeat split. Qed.

(** The envelopes that leave by the end of [HandleRequest] do carry them. *)
Lemma continued_response_carries_cors {Data : Type}
    (json_Marshal : Data -> option string) (r : Router Data) req response :
  events.Method req <> "OPTIONS" ->
  HandleRequest_loop json_Marshal req (events.Path req) (events.Method req)
    (routes r) = Some (Continued response) ->
  exists resp,
    HandleRequest json_Marshal r req = Some resp
    /\ events.header resp "Access-Control-Allow-Origin"
       = Some (if String.eqb (request_origin req) ""
                  || negb (isOriginAllowed r (request_origin req))
               then "*" else request_origin req)
    /\ events.header resp "Access-Control-Allow-Methods"
       = Some (Join (Methods r) ", ")
    /\ events.header resp "Access-Control-Allow-Headers"
       = Some (Join (Headers r) ", ").
Proof.
  intros Hm Hloop. unfold HandleRequest.
  rewrite (proj2 (String.eqb_neq _ _) Hm), Hloop. simpl.
  eexists. split; [reflexivity|]. apply attachCORSHeaders_sets.
Qed.

(** C3, as stated, fails: a handler returns a channel, [json.Marshal] fails,
    and the envelope has the status code 200 and an empty body. *)
Lemma marshal_failure_not_500 :
  let req := mkreq "GET" "/chan" [] in
  sample_Marshal DChan = None
  /\ Handler chan_route req ∅ = (DChan, None)
  /\ exists resp,
       HandleRequest sample_Marshal sample_routes req = Some resp
       /\ events.StatusCode resp = 200
       /\ events.StatusCode resp <> 500
       /\ events.Body resp = "".
Proof.
  simpl. split; [reflexivity|]. split; [reflexivity|].
  eexists. split; [reflexivity|]. repeat split. discriminate.
Qed.

(** C4, as stated, fails for the method OPTIONS: no route is registered, and
    the answer is the preflight's 200 with an empty body. *)
Lemma options_unmatched_not_404 :
  let r : Router sample_data := NewRouter in
  let req := mkreq "OPTIONS" "/nowhere" [] in
  Forall (fun route => route_matches route (events.Method req)
                         (events.Path req) = false) (routes r)
  /\ exists resp,
       HandleRequest sample_Marshal r req = Some resp
       /\ events.StatusCode resp = 200
       /\ events.StatusCode resp <> 404
       /\ events.Body resp <> "Route not found".
Proof.
  simpl. split; [constructor|].
  eexists. split; [reflexivity|]. repeat split; discriminate.
Qed.

(** C5, as stated, fails: the dot of the literal segment a.b is read as an
    operator, and a colon inside a segment starts a group there. *)
Lemma literal_segment_accepts_other_text :
  (exists re,
      buildPathPattern "/a.b" = Some re
      /\ regexp.MatchString re "/axb" = true
      /\ spec_matches "/a.b" "/axb" = false)
  /\ (exists re,
        buildPathPattern "/a:b" = Some re
        /\ regexp.MatchString re "/ax" = true
        /\ spec_matches "/a:b" "/ax" = false).
Proof. split; eexists; (split; [reflexivity|]); split; reflexivity. Qed.

(** ** The theorems at concrete requests *)

Lemma isOriginAllowed_wildcard_only_alone_witness :
  let two : Router sample_data :=
    {| routes := []; Origins := ["*"; "https://example.com"];
       Methods := ["*"]; Headers := ["*"] |} in
  isOriginAllowed (@NewRouter sample_data) "https://anywhere.test" = true
  /\ (isOriginAllowed two "https://evil.com" = true
      <-> In "https://evil.com" (Origins two))
  /\ Origins (@NewRouter sample_data) = ["*"].
Proof.
  intros two. split; [| split].
  - apply (proj1 (isOriginAllowed_wildcard_only_alone NewRouter)).
    reflexivity.
  - apply (proj1 (proj2 (isOriginAllowed_wildcard_only_alone two))).
    simpl. lia.
  - apply (proj2 (proj2 (isOriginAllowed_wildcard_only_alone NewRouter))).
    intros origin. reflexivity.
Defined.

Lemma attachCORSHeaders_frame_witness :
  let resp := attachCORSHeaders strict_router
                (SuccessResponse sample_Marshal DNil) (mkreq "GET" "/" []) in
  events.header resp "Content-Type" = Some "application/json"
  /\ events.StatusCode resp = 200
  /\ events.Body resp = "null".
Proof.
  intros resp. subst resp.
  pose proof (attachCORSHeaders_frame strict_router
                (SuccessResponse sample_Marshal DNil) (mkreq "GET" "/" []))
    as (Hs & Hb & _ & _ & Hk).
  split; [| split].
  - rewrite Hk; [reflexivity | discriminate ..].
  - rewrite Hs. reflexivity.
  - rewrite Hb. reflexivity.
Defined.

Lemma options_answered_by_cors_policy_witness :
  HandleRequest sample_Marshal strict_router
    (mkreq "OPTIONS" "/users/42" [("origin", "https://evil.com")])
  = Some forbidden_response
  /\ HandleRequest sample_Marshal strict_router
       (mkreq "OPTIONS" "/users/42" [("origin", "https://example.com")])
     = Some {| events.StatusCode := 200;
               events.Headers := Some
                 (<["Access-Control-Allow-Headers" := "Content-Type"]>
                   (<["Access-Control-Allow-Methods" := "GET, POST"]>
                     (<["Access-Control-Allow-Origin" := "https://example.com"]>
                        ∅)));
               events.Body := "";
               events.IsBase64Encoded := false; events.Cookies := [] |}.
Proof.
  split.
  - apply (options_answered_by_cors_policy sample_Marshal strict_router
             (mkreq "OPTIONS" "/users/42" [("origin", "https://evil.com")]));
      reflexivity.
  - apply (options_answered_by_cors_policy sample_Marshal strict_router
             (mkreq "OPTIONS" "/users/42" [("origin", "https://example.com")]));
      reflexivity.
Defined.

Lemma handler_error_envelope_witness :
  exists resp,
    HandleRequest sample_Marshal sample_routes (mkreq "GET" "/missing" [])
    = Some resp
    /\ events.StatusCode resp = 404
    /\ events.Body resp = "Error: not found".
Proof.
  destruct (handler_error_envelope sample_Marshal sample_routes
              (mkreq "GET" "/missing" []) [users_route] missing_route
              [chan_route]) as (params & _ & H).
  - discriminate.
  - reflexivity.
  - repeat constructor.
  - reflexivity.
  - apply (H DNil (NewLambdaError 404 "not found")). reflexivity.
Defined.

Lemma unmatched_request_not_found_witness :
  exists resp,
    HandleRequest sample_Marshal sample_routes (mkreq "DELETE" "/users/42" [])
    = Some resp
    /\ resp = attachCORSHeaders sample_routes not_found_response
                (mkreq "DELETE" "/users/42" [])
    /\ events.StatusCode resp = 404
    /\ events.Body resp = "Route not found".
Proof.
  apply (unmatched_request_not_found sample_Marshal sample_routes
           (mkreq "DELETE" "/users/42" [])).
  - discriminate.
  - repeat constructor.
Defined.

Lemma marshal_failure_gives_empty_200_witness :
  exists resp,
    HandleRequest sample_Marshal sample_routes (mkreq "GET" "/chan" [])
    = Some resp
    /\ events.StatusCode resp = 200
    /\ events.Body resp = ""
    /\ events.header resp "Content-Type" = Some "application/json".
Proof.
  destruct (marshal_failure_gives_empty_200 sample_Marshal sample_routes
              (mkreq "GET" "/chan" []) [users_route; missing_route] chan_route
              []) as (params & _ & H).
  - discriminate.
  - reflexivity.
  - repeat constructor.
  - reflexivity.
  - apply (H DChan); reflexivity.
Defined.

Lemma lookup_takes_first_registered_witness :
  (exists params,
      extractParams "/a" (Pattern first_a_route) = Some params
      /\ HandleRequest sample_Marshal twice_router (mkreq "GET" "/a" [])
         = Some (attachCORSHeaders twice_router
                   (SuccessResponse sample_Marshal (DBool true))
                   (mkreq "GET" "/a" [])))
  /\ forall h req,
       HandleRequest sample_Marshal
         (with_routes twice_router [first_a_route; with_handler second_a_route h])
         req
       = HandleRequest sample_Marshal twice_router req.
Proof.
  pose proof (lookup_takes_first_registered sample_Marshal twice_router)
    as [Hfirst Hshadow].
  split.
  - apply (Hfirst (mkreq "GET" "/a" []) [] first_a_route [second_a_route]).
    + discriminate.
    + reflexivity.
    + constructor.
    + reflexivity.
  - apply (Hshadow [] first_a_route [] second_a_route []); reflexivity.
Defined.

Lemma simple_template_matches_by_segments_witness :
  simple_template "/users/:id" = true
  /\ exists re,
       buildPathPattern "/users/:id" = Some re
       /\ forall path,
            regexp.MatchString re path = spec_matches "/users/:id" path.
Proof.
  split; [reflexivity|].
  apply (simple_template_matches_by_segments "/users/:id"). reflexivity.
Defined.

(** * Further properties of the code *)

(** ** Static templates and captured segments *)
Section Captures.

Import regexp.
#[local] Arguments Ascii.eqb : simpl never.

Lemma no_marker_unchanged s :
  no_marker s = true -> ReplaceAllString_params false s = s.
Proof.
  induction s as [|c rest IH]; [reflexivity|].
  cbn [no_marker ReplaceAllString_params]. intros H.
  apply andb_true_iff in H as [Hc Hrest].
  destruct (is_colon c).
  - destruct rest as [|d rest']; [reflexivity|].
    rewrite Hc. f_equal. apply IH, Hrest.
  - f_equal. apply IH, Hrest.
Qed.

Lemma literal_text_parse s :
  literal_text s = true -> parse 0 (s +:+ "$") = Some (literal_prog s).
Proof.
  induction s as [|c rest IH]; [reflexivity|].
  cbn [literal_text]. intros H. apply andb_true_iff in H as [Hc Hrest].
  change (String c rest +:+ "$") with (String c (rest +:+ "$")).
  rewrite (literal_parse _ _ Hc), (IH Hrest). reflexivity.
Qed.

Lemma exec_literal_exact t :
  forall s, is_some (exec (literal_prog t) s) = String.eqb s t.
Proof.
  induction t as [|c t IH]; intros [|d rest]; try reflexivity.
  change (literal_prog (String c t)) with (Lit c :: literal_prog t).
  cbn [exec String.eqb]. rewrite (Ascii.eqb_sym d c).
  destruct (Ascii.eqb c d); [apply IH | reflexivity].
Qed.

(** X1: an ASCII template that holds no pattern operator and no colon
    followed by a name compiles, and its matcher accepts the template itself
    and no other path. *)
Theorem static_template_matches_itself template :
  static_template template = true ->
  exists re,
    buildPathPattern template = Some re
    /\ forall path, MatchString re path = String.eqb path template.
Proof.
  intros H. apply andb_true_iff in H as [Hmeta Hmarker].
  exists {| prog := literal_prog template |}. split.
  - unfold buildPathPattern, MustCompile.
    rewrite (no_marker_unchanged _ Hmarker).
    change ("^" +:+ template +:+ "$") with (String "^" (template +:+ "$")).
    unfold Compile. now rewrite (literal_text_parse _ Hmeta).
  - intros path. apply exec_literal_exact.
Qed.

(** What the program of a list of simple segments returns: the path segments
    facing the parameters, when the segment-wise comparison accepts. *)
Lemma exec_segments_values ts :
  Forall (fun t => no_slash t = true) ts ->
  forallb simple_segment ts = true ->
  ts <> [] ->
  forall path,
    exec (segments_prog ts) path
    = if segments_accept ts (segments path)
      then Some (param_values ts (segments path))
      else None.
Proof.
  induction 1 as [|t ts Ht Hts IH]; [congruence|].
  intros Hsimple _ path. simpl in Hsimple.
  apply andb_true_iff in Hsimple as [Hsimple_t Hsimple_ts].
  rewrite segments_cut. cbn [segments_prog segments_accept param_values].
  unfold segment_prog, segment_accepts.
  destruct (named_param_segment t) eqn:Eparam.
  - rewrite (named_param_is_param _ Eparam).
    destruct ts as [|t' ts'].
    + cbn [after_segment app]. rewrite exec_capture, cap_greedy_last.
      destruct (cut path) as [seg tail]. cbn [fst snd].
      rewrite segments_accept_nil_tail.
      destruct tail; [now rewrite andb_false_r|].
      now destruct (String.eqb seg "").
    + cbn [after_segment app]. rewrite exec_capture, cap_greedy_slash.
      destruct (cut path) as [seg [r|]]; cbn [fst snd];
        [|now destruct (String.eqb seg "")].
      destruct (String.eqb seg ""); [reflexivity|]. cbn [negb andb].
      rewrite (IH Hsimple_ts ltac:(discriminate) r).
      now destruct (segments_accept (t' :: ts') (segments r)).
  - unfold simple_segment in Hsimple_t. rewrite Eparam in Hsimple_t.
    simpl in Hsimple_t. rewrite (plain_string_not_colon _ Hsimple_t).
    destruct ts as [|t' ts'].
    + cbn [after_segment]. rewrite app_nil_r, (exec_literal_last _ Ht).
      destruct (cut path) as [seg tail]. cbn [fst snd].
      rewrite segments_accept_nil_tail, (String.eqb_sym t seg).
      destruct tail; [now rewrite andb_false_r|].
      now destruct (String.eqb seg t).
    + cbn [after_segment]. rewrite (exec_literal_slash _ _ Ht).
      rewrite (String.eqb_sym t).
      destruct (cut path) as [seg [r|]]; cbn [fst snd];
        [|now destruct (String.eqb seg t)].
      destruct (String.eqb seg t); [|reflexivity]. cbn [andb].
      apply (IH Hsimple_ts ltac:(discriminate)).
Qed.

(** X2: for a template of simple segments (a colon and a name, or ASCII text
    free of colons and pattern operators), [FindStringSubmatch] on an
    accepted path returns the path followed by the path segments that face
    the parameter segments, in order; on any other path it returns nothing. *)
Theorem simple_template_captures_segments template :
  simple_template template = true ->
  exists re,
    buildPathPattern template = Some re
    /\ forall path,
         FindStringSubmatch re path
         = if spec_matches template path
           then Some (path :: param_values (segments template) (segments path))
           else None.
Proof.
  intros Hsimple. eexists. split.
  - apply simple_template_compiles, Hsimple.
  - intros path. unfold FindStringSubmatch, spec_matches. cbn [prog].
    rewrite exec_segments_values;
      [| apply segments_no_slash | exact Hsimple | apply segments_nonempty].
    now destruct (segments_accept (segments template) (segments path)).
Qed.

End Captures.

(** ** What [extractParams] enters *)
Section Extraction.

Import regexp.

Lemma extractParams_loop_binds matches names :
  forall i caps params,
    (0 < i)%nat ->
    drop i matches = caps ->
    (length names <= length caps)%nat ->
    extractParams_loop matches i names params
    = Some (bind_groups names caps params).
Proof.
  induction names as [|name names IH]; intros i caps params Hi Hdrop Hlen.
  - reflexivity.
  - destruct caps as [|cap caps]; [simpl in Hlen; lia|].
    assert (Hcap : matches !! i = Some cap).
    { rewrite <- (Nat.add_0_r i), <- lookup_drop, Hdrop. reflexivity. }
    rewrite (drop_S _ _ _ Hcap) in Hdrop. injection Hdrop as Hdrop.
    cbn [extractParams_loop bind_groups].
    rewrite (proj2 (Nat.ltb_lt 0 i) Hi), Hcap. simpl in Hlen.
    destruct (String.eqb name ""); cbn [negb andb];
      apply IH; (lia || assumption).
Qed.

Lemma bind_groups_other names :
  forall caps (params : Params) name,
    name = "" \/ name ∉ names ->
    bind_groups names caps params !! name = params !! name.
Proof.
  induction names as [|n names IH]; intros caps params name Hname;
    [reflexivity|].
  destruct caps as [|cap caps]; [reflexivity|]. cbn [bind_groups].
  rewrite IH by (destruct Hname as [|Hn]; [now left | right; set_solver]).
  destruct (String.eqb n "") eqn:En; [reflexivity|].
  apply String.eqb_neq in En. apply lookup_insert_ne.
  destruct Hname as [-> | Hn]; [exact En | set_solver].
Qed.

Lemma bind_groups_last names :
  forall i caps (params : Params) name cap,
    names !! i = Some name -> caps !! i = Some cap -> name <> "" ->
    (forall j, (i < j)%nat -> names !! j <> Some name) ->
    bind_groups names caps params !! name = Some cap.
Proof.
  induction names as [|n names IH]; intros i caps params name cap Hn Hc Hne Hlast;
    [discriminate|].
  destruct caps as [|c caps]; [discriminate|]. cbn [bind_groups].
  destruct i as [|i].
  - injection Hn as ->. injection Hc as ->.
    rewrite bind_groups_other.
    + rewrite (proj2 (String.eqb_neq _ _) Hne). apply lookup_insert_eq.
    + right. intros Hin. apply list_elem_of_lookup in Hin as [j Hj].
      apply (Hlast (S j)); [lia | exact Hj].
  - apply (IH i); try assumption.
    intros j Hj. apply (Hlast (S j)). lia.
Qed.

(** X3: after a match, [extractParams] binds every group that has a name to
    the text the group matched, the last group winning when a name occurs
    twice, and binds nothing else: no unnamed group, no whole match. *)
Theorem extractParams_binds_named_groups re path matches :
  FindStringSubmatch re path = Some matches ->
  exists params,
    extractParams path re = Some params
    /\ (forall name,
          name = "" \/ name ∉ SubexpNames re -> params !! name = None)
    /\ (forall i name,
          SubexpNames re !! i = Some name -> name <> "" ->
          (forall j, (i < j)%nat -> SubexpNames re !! j <> Some name) ->
          params !! name = matches !! i).
Proof.
  intros Hm. unfold extractParams, SubexpNames. rewrite Hm.
  unfold FindStringSubmatch in Hm.
  destruct (exec (prog re) path) as [caps|] eqn:E; [|discriminate].
  injection Hm as <-. cbn [default extractParams_loop Nat.ltb Nat.leb andb].
  pose proof (exec_length _ _ _ E) as Hlen.
  rewrite (extractParams_loop_binds _ _ 1 caps) by (reflexivity || lia).
  eexists. split; [reflexivity|]. split.
  - intros name Hname. rewrite bind_groups_other; [apply lookup_empty|].
    destruct Hname as [|Hn]; [now left | right; set_solver].
  - intros [|i] name Hn Hne Hlast; [simpl in Hn; congruence|].
    change (("" :: group_names (prog re)) !! S i)
      with (group_names (prog re) !! i) in Hn.
    destruct (lookup_lt_is_Some_2 caps i) as [cap Hcap].
    { rewrite Hlen. eapply lookup_lt_Some, Hn. }
    change ((path :: caps) !! S i) with (caps !! i). rewrite Hcap.
    apply (bind_groups_last _ i); try assumption.
    intros j Hj. apply (Hlast (S j)). lia.
Qed.

Lemma extractParams_loop_nil names :
  forall i params,
    (0 < i)%nat ->
    Exists (fun name => name <> "") names ->
    extractParams_loop [] i names params = None.
Proof.
  induction names as [|name names IH]; intros i params Hi Hex.
  - inversion Hex.
  - cbn [extractParams_loop]. rewrite (proj2 (Nat.ltb_lt 0 i) Hi).
    destruct (String.eqb name "") eqn:En; cbn [negb andb].
    + apply IH; [lia|]. apply String.eqb_eq in En.
      inversion Hex; subst; [congruence | assumption].
    + now rewrite lookup_nil.
Qed.

(** X4: called on a path its pattern rejects, [extractParams] panics when
    the pattern has a named group (it indexes the nil result of
    [FindStringSubmatch]) and returns empty params when it has none. *)
Theorem extractParams_on_rejected_path re path :
  MatchString re path = false ->
  (Exists (fun name => name <> "") (SubexpNames re) ->
   extractParams path re = None)
  /\ (Forall (fun name => name = "") (SubexpNames re) ->
      extractParams path re = Some ∅).
Proof.
  unfold MatchString. intros Hm.
  assert (Hnil : FindStringSubmatch re path = None).
  { unfold FindStringSubmatch.
    destruct (exec (prog re) path); [discriminate | reflexivity]. }
  unfold extractParams, SubexpNames. rewrite Hnil. cbn [default]. split.
  - intros Hex. cbn [extractParams_loop Nat.ltb Nat.leb andb].
    apply extractParams_loop_nil; [lia|].
    inversion Hex; subst; [congruence | assumption].
  - intros Hall. now apply extractParams_loop_unnamed.
Qed.

End Extraction.

(** ** The dispatcher, every request *)
Section Answers.

Context {Data : Type} (json_Marshal : Data -> option string).
Implicit Types (r : Router Data) (route : Route Data)
  (req : events.LambdaFunctionURLRequest).

Lemma HandleRequest_loop_cases req path method (rs : list (Route Data)) :
  exists out,
    HandleRequest_loop json_Marshal req path method rs = Some out
    /\ ((out = Continued events.zero
         /\ Forall (fun route => route_matches route method path = false) rs)
        \/ (exists route params data e,
              In route rs /\ route_matches route method path = true
              /\ extractParams path (Pattern route) = Some params
              /\ Handler route req params = (data, Some e)
              /\ out = Returned (ErrorResponse e))
        \/ (exists route params data,
              In route rs /\ route_matches route method path = true
              /\ extractParams path (Pattern route) = Some params
              /\ Handler route req params = (data, None)
              /\ out = Continued (SuccessResponse json_Marshal data))).
Proof.
  induction rs as [|route rs IH]; cbn [HandleRequest_loop].
  - eexists. split; [reflexivity|]. left. split; [reflexivity | constructor].
  - fold (route_matches route method path).
    destruct (route_matches route method path) eqn:Hroute.
    + pose proof Hroute as Hm. unfold route_matches in Hm.
      apply andb_true_iff in Hm as [_ Hm].
      destruct (extractParams_total _ _ Hm) as [params Hparams].
      rewrite Hparams. cbn.
      destruct (Handler route req params) as [data [e|]] eqn:Hh;
        (eexists; split; [reflexivity|]; right); [left | right].
      * exists route, params, data, e. simpl. auto.
      * exists route, params, data. simpl. auto.
    + destruct IH as (out & Hout & Hcases). exists out. split; [exact Hout|].
      destruct Hcases as [[-> Hall] | [Herr | Hok]].
      * left. split; [reflexivity | now constructor].
      * right; left. destruct Herr as (route' & params & data & e & Hin & H).
        exists route', params, data, e. simpl. tauto.
      * right; right. destruct Hok as (route' & params & data & Hin & H).
        exists route', params, data. simpl. tauto.
Qed.

Lemma HandleRequest_dispatched r req :
  events.Method req <> "OPTIONS" ->
  exists resp,
    HandleRequest json_Marshal r req = Some resp
    /\ dispatched json_Marshal r req resp.
Proof.
  intros Hm. unfold HandleRequest.
  rewrite (proj2 (String.eqb_neq _ _) Hm).
  destruct (HandleRequest_loop_cases req (events.Path req) (events.Method req)
              (routes r)) as (out & -> & Hcases).
  destruct Hcases as [[-> Hall] | [Herr | Hok]].
  - eexists. split; [reflexivity|]. now apply dispatched_not_found.
  - destruct Herr as (route & params & data & e & Hin & Hr & Hp & Hh & ->).
    eexists. split; [reflexivity|]. eapply dispatched_error; eassumption.
  - destruct Hok as (route & params & data & Hin & Hr & Hp & Hh & ->).
    eexists. split; [reflexivity|]. eapply dispatched_success; eassumption.
Qed.


Lemma attached_origin r response req (o : string) :
  events.header (attachCORSHeaders r response req)
    "Access-Control-Allow-Origin" = Some o ->
  o = "*" \/ (o = request_origin req /\ isOriginAllowed r o = true).
Proof.
  rewrite (proj1 (attachCORSHeaders_sets r response req)).
  destruct (String.eqb (request_origin req) "") eqn:E1; cbn [orb];
    [intros [= <-]; now left|].
  destruct (isOriginAllowed r (request_origin req)) eqn:E2; cbn [negb];
    intros [= <-]; [right | left]; auto.
Qed.

(** X6: whatever the request, the header Access-Control-Allow-Origin of the
    answer, when it is there, is either "*" or the origin of the request, and
    then this origin is allowed: an origin that is not allowed is never
    echoed. *)
Theorem HandleRequest_never_echoes_disallowed_origin r req resp (o : string) :
  HandleRequest json_Marshal r req = Some resp ->
  events.header resp "Access-Control-Allow-Origin" = Some o ->
  o = "*" \/ (o = request_origin req /\ isOriginAllowed r o = true).
Proof.
  intros Hresp Ho.
  destruct (decide (events.Method req = "OPTIONS")) as [E | NE].
  - unfold HandleRequest in Hresp. rewrite E in Hresp.
    injection Hresp as <-. unfold corsPreflightResponse in Ho.
    destruct (isOriginAllowed r (request_origin req)) eqn:Ha;
      cbn [negb] in Ho; [|discriminate].
    unfold events.header in Ho. cbn [events.Headers] in Ho.
    rewrite !lookup_insert_ne, lookup_insert_eq in Ho by discriminate.
    injection Ho as <-. now right.
  - destruct (HandleRequest_dispatched r req NE) as (resp' & Hresp' & Hd).
    rewrite Hresp in Hresp'. injection Hresp' as <-.
    destruct Hd; [eapply attached_origin, Ho | discriminate
                 | eapply attached_origin, Ho].
Qed.

(** X7: when the handler of the matched route returns a value and no error,
    and [json.Marshal] renders the value as [body], the envelope has the
    status code 200, the body [body] and four headers: Content-Type
    application/json and the three CORS headers. *)
Theorem handler_success_envelope r req pre route post :
  events.Method req <> "OPTIONS" ->
  routes r = (pre ++ route :: post)%list ->
  Forall (fun x => route_matches x (events.Method req) (events.Path req)
                   = false) pre ->
  route_matches route (events.Method req) (events.Path req) = true ->
  exists params,
    extractParams (events.Path req) (Pattern route) = Some params
    /\ forall data body,
         Handler route req params = (data, None) ->
         json_Marshal data = Some body ->
         let origin := request_origin req in
         HandleRequest json_Marshal r req
         = Some {| events.StatusCode := 200;
                   events.Headers := Some
                     (<["Access-Control-Allow-Headers" := Join (Headers r) ", "]>
                       (<["Access-Control-Allow-Methods" := Join (Methods r) ", "]>
                         (<["Access-Control-Allow-Origin" :=
                              if String.eqb origin ""
                                 || negb (isOriginAllowed r origin)
                              then "*" else origin]>
                            (<["Content-Type" := "application/json"]> ∅))));
                   events.Body := body;
                   events.IsBase64Encoded := false; events.Cookies := [] |}.
Proof.
  intros Hm Hr Hpre Hroute.
  destruct (HandleRequest_first json_Marshal r req pre route post
              Hm Hr Hpre Hroute) as (params & Hparams & Hres).
  exists params. split; [exact Hparams|].
  intros data body Hd Hbody. rewrite Hd in Hres. rewrite Hres.
  unfold attachCORSHeaders, SuccessResponse. cbn. now rewrite Hbody.
Qed.

End Answers.

(** ** Registration *)
Section Registration.

Context {Data : Type} (json_Marshal : Data -> option string).
Implicit Types (r : Router Data) (route : Route Data)
  (req : events.LambdaFunctionURLRequest).

(** A route appended behind a matching one, or one that does not match
    itself, leaves the loop as it was. *)
Lemma HandleRequest_loop_append req path method (rs : list (Route Data)) route :
  Exists (fun x => route_matches x method path = true) rs
  \/ route_matches route method path = false ->
  HandleRequest_loop json_Marshal req path method (rs ++ [route])
  = HandleRequest_loop json_Marshal req path method rs.
Proof.
  intros H. induction rs as [|x rs IH]; cbn [app HandleRequest_loop].
  - destruct H as [H | H]; [inversion H|].
    unfold route_matches in H. now rewrite H.
  - fold (route_matches x method path).
    destruct (route_matches x method path) eqn:Hx; [reflexivity|].
    apply IH. destruct H as [H | H]; [left | now right].
    inversion H; subst; [congruence | assumption].
Qed.

Lemma AddRoute_other_requests r method path handler r' req :
  AddRoute r method path handler = Some r' ->
  events.Method req = "OPTIONS"
  \/ Exists (fun route => route_matches route (events.Method req)
                            (events.Path req) = true) (routes r)
  \/ events.Method req <> method ->
  HandleRequest json_Marshal r' req = HandleRequest json_Marshal r req.
Proof.
  unfold AddRoute.
  destruct (buildPathPattern path) as [pattern|]; [|discriminate].
  cbn. intros [= <-] H. unfold HandleRequest. cbn [routes].
  destruct (String.eqb (events.Method req) "OPTIONS") eqn:Eo; [reflexivity|].
  rewrite HandleRequest_loop_append; [reflexivity|].
  destruct H as [H | [H | H]].
  - apply String.eqb_neq in Eo. contradiction.
  - now left.
  - right. unfold route_matches. cbn [Method].
    rewrite (String.eqb_sym method), (proj2 (String.eqb_neq _ _) H).
    reflexivity.
Qed.

(** X8: registering a route changes no answer to a preflight, to a request
    that a route registered before matches, or to a request of another
    method than the new route's. *)
Theorem AddRoute_keeps_earlier_answers r method path handler r' req :
  AddRoute r method path handler = Some r' ->
  events.Method req = "OPTIONS"
  \/ Exists (fun route => route_matches route (events.Method req)
                            (events.Path req) = true) (routes r)
  \/ events.Method req <> method ->
  HandleRequest json_Marshal r' req = HandleRequest json_Marshal r req.
Proof. apply AddRoute_other_requests. Qed.

(** X9: a route registered by [Get], [Post], [Put] or [Delete] takes part
    only in requests of its own method, GET, POST, PUT or DELETE: every
    request of another method is answered as before the registration. *)
Theorem verb_routes_answer_their_method_only r path handler r' req :
  (Get r path handler = Some r' /\ events.Method req <> "GET")
  \/ (Post r path handler = Some r' /\ events.Method req <> "POST")
  \/ (Put r path handler = Some r' /\ events.Method req <> "PUT")
  \/ (Delete r path handler = Some r' /\ events.Method req <> "DELETE") ->
  HandleRequest json_Marshal r' req = HandleRequest json_Marshal r req.
Proof.
  unfold Get, Post, Put, Delete.
  intros [[H Hm] | [[H Hm] | [[H Hm] | [H Hm]]]];
    eapply AddRoute_other_requests; eauto.
Qed.

(** X10: a template of simple segments (a colon and a name, or ASCII text
    free of colons and pattern operators) can always be registered, and a
    request of the route's method whose path the template accepts segment by
    segment, and that no earlier route matches, is answered by the new
    route's handler: its error envelope as it is, or its success envelope
    with the CORS headers. *)
Theorem registered_simple_route_is_dispatched r method template handler :
  simple_template template = true ->
  method <> "OPTIONS" ->
  exists pattern r',
    buildPathPattern template = Some pattern
    /\ AddRoute r method template handler = Some r'
    /\ forall req,
         events.Method req = method ->
         spec_matches template (events.Path req) = true ->
         Forall (fun x => route_matches x (events.Method req)
                            (events.Path req) = false) (routes r) ->
         exists params,
           extractParams (events.Path req) pattern = Some params
           /\ HandleRequest json_Marshal r' req
              = Some (match handler req params with
                      | (_, Some e) => ErrorResponse e
                      | (data, None) =>
                          attachCORSHeaders r'
                            (SuccessResponse json_Marshal data) req
                      end).
Proof.
  intros Hsimple Hmethod. unfold AddRoute.
  rewrite (simple_template_compiles _ Hsimple). cbn.
  eexists. eexists. split; [reflexivity|]. split; [reflexivity|].
  intros req Hm Hpath Hpre.
  match goal with
  | |- context [HandleRequest _ ?router _] => set (r' := router)
  end.
  apply (HandleRequest_first json_Marshal r' req (routes r)
           {| Method := method;
              Pattern := {| regexp.prog := segments_prog (segments template) |};
              Handler := handler; Template := template |} []).
  - now rewrite Hm.
  - reflexivity.
  - exact Hpre.
  - unfold route_matches, regexp.MatchString. cbn [Method Pattern regexp.prog].
    rewrite Hm, String.eqb_refl. cbn [andb].
    pose proof (exec_segments (segments template) (segments_no_slash template)
                  Hsimple (segments_nonempty template) (events.Path req)) as He.
    unfold spec_matches in Hpath. rewrite Hpath in He.
    now destruct (regexp.exec (segments_prog (segments template))
                    (events.Path req)).
Qed.

End Registration.

(** ** More on the CORS headers *)
Section CorsMore.

Context {Data : Type}.
Implicit Types (r : Router Data) (req : events.LambdaFunctionURLRequest).

(** X11: attaching the CORS headers twice is attaching them once: the three
    headers are overwritten, whatever they were. *)
Theorem attachCORSHeaders_idempotent r response req :
  attachCORSHeaders r (attachCORSHeaders r response req) req
  = attachCORSHeaders r response req.
Proof.
  unfold attachCORSHeaders. cbn. f_equal. f_equal.
  apply map_eq. intros k.
  destruct (decide (k = "Access-Control-Allow-Headers")) as [-> | Hh];
    [now rewrite !lookup_insert_eq|].
  destruct (decide (k = "Access-Control-Allow-Methods")) as [-> | Hm];
    [now repeat first [ rewrite lookup_insert_eq
                      | rewrite lookup_insert_ne by discriminate ]|].
  destruct (decide (k = "Access-Control-Allow-Origin")) as [-> | Ho];
    [now repeat first [ rewrite lookup_insert_eq
                      | rewrite lookup_insert_ne by discriminate ]|].
  now repeat (rewrite lookup_insert_ne by congruence).
Qed.

(** X12: a preflight without origin header is judged as the empty origin:
    when Origins is ["*"] or lists the empty string, the answer is 200 with
    an empty Access-Control-Allow-Origin; otherwise it is the 403. *)
Theorem preflight_without_origin_header r req :
  events.ReqHeaders req !! "origin" = None ->
  (Origins r = ["*"] \/ In "" (Origins r) ->
   events.StatusCode (corsPreflightResponse r req) = 200
   /\ events.header (corsPreflightResponse r req)
        "Access-Control-Allow-Origin" = Some "")
  /\ (Origins r <> ["*"] -> ~ In "" (Origins r) ->
      corsPreflightResponse r req = forbidden_response).
Proof.
  intros Hnone.
  assert (Ho : request_origin req = "").
  { unfold request_origin. now rewrite Hnone. }
  unfold corsPreflightResponse. rewrite Ho. split.
  - intros H.
    assert (Ha : isOriginAllowed r "" = true).
    { destruct (decide (Origins r = ["*"])) as [E | NE].
      - now apply isOriginAllowed_wildcard.
      - apply isOriginAllowed_listed; [exact NE|]. now destruct H. }
    rewrite Ha. cbn [negb]. split; [reflexivity|].
    unfold events.header. cbn [events.Headers].
    rewrite !lookup_insert_ne by discriminate. apply lookup_insert_eq.
  - intros NE Hnot.
    assert (Ha : isOriginAllowed r "" = false).
    { destruct (isOriginAllowed r "") eqn:E; [|reflexivity].
      apply (isOriginAllowed_listed r "" NE) in E. contradiction. }
    now rewrite Ha.
Qed.

End CorsMore.

(** ** The further properties at concrete requests *)

Lemma static_template_matches_itself_witness :
  exists re,
    buildPathPattern "/users" = Some re
    /\ forall path, regexp.MatchString re path = String.eqb path "/users".
Proof. apply (static_template_matches_itself "/users"). reflexivity. Defined.

Lemma simple_template_captures_segments_witness :
  exists re,
    buildPathPattern "/users/:id/posts/:post" = Some re
    /\ forall path,
         regexp.FindStringSubmatch re path
         = if spec_matches "/users/:id/posts/:post" path
           then Some (path :: param_values (segments "/users/:id/posts/:post")
                                (segments path))
           else None.
Proof.
  apply (simple_template_captures_segments "/users/:id/posts/:post").
  reflexivity.
Defined.

Lemma extractParams_binds_named_groups_witness :
  exists params,
    extractParams "/users/42" named_users_pattern = Some params
    /\ params !! "id" = Some "42".
Proof.
  destruct (extractParams_binds_named_groups named_users_pattern "/users/42"
              ["/users/42"; "42"]) as (params & Hparams & _ & Hbound).
  - reflexivity.
  - exists params. split; [exact Hparams|].
    apply (Hbound 1%nat "id").
    + reflexivity.
    + discriminate.
    + intros [|[|j]] Hj; [lia | lia | discriminate].
Defined.

Lemma extractParams_on_rejected_path_witness :
  extractParams "/users" named_users_pattern = None
  /\ extractParams "/users" (Pattern users_route) = Some ∅.
Proof.
  split.
  - apply (extractParams_on_rejected_path named_users_pattern "/users").
    + reflexivity.
    + apply Exists_cons_tl, Exists_cons_hd. discriminate.
  - apply (extractParams_on_rejected_path (Pattern users_route) "/users").
    + reflexivity.
    + repeat constructor.
Defined.

Lemma HandleRequest_never_echoes_disallowed_origin_witness :
  let req := mkreq "GET" "/nowhere" [("origin", "https://a.test")] in
  "https://a.test" = "*"
  \/ ("https://a.test" = request_origin req
      /\ isOriginAllowed sample_routes "https://a.test" = true).
Proof.
  intros req.
  apply (HandleRequest_never_echoes_disallowed_origin sample_Marshal
           sample_routes req
           (attachCORSHeaders sample_routes not_found_response req));
    reflexivity.
Defined.

Lemma handler_success_envelope_witness :
  HandleRequest sample_Marshal twice_router (mkreq "GET" "/a" [])
  = Some {| events.StatusCode := 200;
            events.Headers := Some
              (<["Access-Control-Allow-Headers" := "*"]>
                (<["Access-Control-Allow-Methods" := "*"]>
                  (<["Access-Control-Allow-Origin" := "*"]>
                    (<["Content-Type" := "application/json"]> ∅))));
            events.Body := "true";
            events.IsBase64Encoded := false; events.Cookies := [] |}.
Proof.
  destruct (handler_success_envelope sample_Marshal twice_router
              (mkreq "GET" "/a" []) [] first_a_route [second_a_route])
    as (params & _ & H).
  - discriminate.
  - reflexivity.
  - constructor.
  - reflexivity.
  - apply (H (DBool true) "true"); reflexivity.
Defined.

Lemma AddRoute_keeps_earlier_answers_witness :
  HandleRequest sample_Marshal twice_router (mkreq "GET" "/a" [])
  = HandleRequest sample_Marshal once_router (mkreq "GET" "/a" []).
Proof.
  apply (AddRoute_keeps_earlier_answers sample_Marshal once_router "GET" "/a"
           (const_handler (DBool false))).
  - reflexivity.
  - right; left. apply Exists_cons_hd. reflexivity.
Defined.

Lemma verb_routes_answer_their_method_only_witness :
  HandleRequest sample_Marshal posted_router (mkreq "GET" "/a" [])
  = HandleRequest sample_Marshal once_router (mkreq "GET" "/a" []).
Proof.
  apply (verb_routes_answer_their_method_only sample_Marshal once_router "/a"
           (const_handler DNil)).
  right; left. split; [reflexivity | discriminate].
Defined.

Lemma registered_simple_route_is_dispatched_witness :
  exists pattern r',
    buildPathPattern "/users/:id" = Some pattern
    /\ AddRoute NewRouter "GET" "/users/:id" user_handler = Some r'
    /\ forall req,
         events.Method req = "GET" ->
         spec_matches "/users/:id" (events.Path req) = true ->
         Forall (fun x => route_matches x (events.Method req)
                            (events.Path req) = false)
           (routes (@NewRouter sample_data)) ->
         exists params,
           extractParams (events.Path req) pattern = Some params
           /\ HandleRequest sample_Marshal r' req
              = Some (match user_handler req params with
                      | (_, Some e) => ErrorResponse e
                      | (data, None) =>
                          attachCORSHeaders r'
                            (SuccessResponse sample_Marshal data) req
                      end).
Proof.
  apply (registered_simple_route_is_dispatched sample_Marshal NewRouter "GET"
           "/users/:id" user_handler).
  - reflexivity.
  - discriminate.
Defined.

Lemma preflight_without_origin_header_witness :
  let req := mkreq "OPTIONS" "/users/42" [] in
  (events.StatusCode (corsPreflightResponse (@NewRouter sample_data) req) = 200
   /\ events.header (corsPreflightResponse (@NewRouter sample_data) req)
        "Access-Control-Allow-Origin" = Some "")
  /\ corsPreflightResponse strict_router req = forbidden_response.
Proof.
  intros req. split.
  - apply (preflight_without_origin_header NewRouter req); [reflexivity|].
    left. reflexivity.
  - apply (preflight_without_origin_header strict_router req).
    + reflexivity.
    + discriminate.
    + simpl. intros [H | []]. discriminate H.
Defined.

